(** * ConfigKeywordParser: keyword resolution against supported environments

    A shallow embedding of [wip/genconfig/src/config_keyword_parser.py]
    (class [ConfigKeywordParser]) and the properties its specification
    states about it, followed by the methods of the class [LoadEnv] of
    [wip/loadenv/load_env.py] that find the system of a build.

    Conventions of the embedding.
    - A Python [str] is a [string]; its characters are the code points
      below 256, so [len] is [String.length] and [<] on strings is the
      character-wise lexicographic order.
    - [sys.exit(msg)] is the outcome [SysExit msg]; an exception that is
      not caught inside the class ([KeyError], [IndexError]) is [Raise].
    - The object [self] and the number of times the configuration file
      has been loaded are threaded through a state monad [M].
    - The methods inherited from the base classes [GenConfigCommon] and
      [KeywordParser] are the fields of the class [KeywordParser]. *)

From Stdlib Require Import String Ascii List Arith Bool Lia Permutation Sorted.
From stdpp Require Import base gmap strings list sorting.
Import ListNotations.

Local Open Scope string_scope.
Local Open Scope list_scope.

(** ** Python strings *)

Module Py.

(** The newline character and a one-character string of it. *)
Definition nl_char : ascii := ascii_of_nat 10.
Definition nl : string := String nl_char EmptyString.

(** [needle in hay] for two strings. *)
Fixpoint contains (needle hay : string) : bool :=
  match hay with
  | EmptyString => String.prefix needle hay
  | String _ rest => String.prefix needle hay || contains needle rest
  end.

(** [s.replace(old, new)] for one-character [old] and [new]. *)
Fixpoint replace (old new : ascii) (s : string) : string :=
  match s with
  | EmptyString => EmptyString
  | String c rest =>
      String (if Ascii.eqb c old then new else c) (replace old new rest)
  end.

(** [str.isspace] on one character (also what [\s] matches in a [str]
    pattern). *)
Definition isspace (c : ascii) : bool :=
  let n := nat_of_ascii c in
  (((9 <=? n) && (n <=? 13)) || ((28 <=? n) && (n <=? 32))
   || (n =? 133) || (n =? 160))%nat.

Fixpoint lstrip (s : string) : string :=
  match s with
  | EmptyString => EmptyString
  | String c rest => if isspace c then lstrip rest else s
  end.

Fixpoint rstrip (s : string) : string :=
  match s with
  | EmptyString => EmptyString
  | String c rest =>
      match rstrip rest with
      | EmptyString => if isspace c then EmptyString else String c EmptyString
      | r => String c r
      end
  end.

(** [s.strip()]. *)
Definition strip (s : string) : string := rstrip (lstrip s).

(** [sorted(l, key=...)]: a stable sort. [before y x] says that [y] goes
    strictly before [x]; an element is put in front of the first element
    that does not go strictly before it, so equal elements keep the order
    they came in. *)
Section Sorted.
Context {A : Type} (before : A -> A -> bool).

Fixpoint insert_sorted (x : A) (l : list A) : list A :=
  match l with
  | [] => [x]
  | y :: ys => if before y x then y :: insert_sorted x ys else x :: y :: ys
  end.

Fixpoint sorted (l : list A) : list A :=
  match l with
  | [] => []
  | x :: xs => insert_sorted x (sorted xs)
  end.

End Sorted.

(** [x in l] for a list of strings. *)
Definition list_in (x : string) (l : list string) : bool :=
  existsb (String.eqb x) l.

(** [l.count(x)] for a list of strings. *)
Definition count (x : string) (l : list string) : nat :=
  count_occ string_dec l x.

(** The list a [for] loop over [set(l)] goes through: every value of [l]
    once, in an order the language does not fix. *)
Definition set_iter (l : list string) : list string :=
  elements (list_to_set l : gset string).

(** [key=len, reverse=True]: the longer string goes first. *)
Definition longer (y x : string) : bool :=
  (String.length x <? String.length y)%nat.

(** The default order of [sorted] on strings. *)
Definition str_lt (y x : string) : bool := String.ltb y x.

End Py.

(** ** Outcomes and the state monad *)

Inductive Outcome (A : Type) : Type :=
| Ok (a : A)
| SysExit (msg : string)
| Raise (exc : string).
Arguments Ok {A} a.
Arguments SysExit {A} msg.
Arguments Raise {A} exc.

(** The configuration as [ConfigParserEnhancedData] exposes it: sections in
    file order, each an ordered mapping from key to value block (a value
    may be [None]). *)
Abbreviation SectionData := (list (string * option string)).
Abbreviation ConfigData := (list (string * SectionData)).

Definition keys (sec : SectionData) : list string := map fst sec.
Definition values (sec : SectionData) : list (option string) := map snd sec.

(** [data[section_name]]. *)
Fixpoint getitem (data : ConfigData) (name : string) : Outcome SectionData :=
  match data with
  | [] => Raise "KeyError"
  | (n, sec) :: rest => if String.eqb n name then Ok sec else getitem rest name
  end.

(** The attributes of a [ConfigKeywordParser] object.  [env_names] and
    [aliases] hold [[]] until [__init__] assigns them; they are not read
    before that.  [_qualified_env_name = None] stands for the attribute
    not being there ([hasattr] is false). *)
Record ConfigKeywordParser : Type := mkParser {
  _supported_envs : option ConfigData;
  supported_envs_filename : string;
  build_name : string;
  system_name : string;
  env_names : list string;
  aliases : list string;
  _qualified_env_name : option string
}.

(** What a method runs in: the object, the contents of the configuration
    file (never written), and the number of times the file was loaded by
    the methods of this class. *)
Record State : Type := mkState {
  self : ConfigKeywordParser;
  source : ConfigData;
  loads : nat
}.

Definition M (A : Type) : Type := State -> Outcome A * State.

Definition ret {A} (a : A) : M A := fun s => (Ok a, s).

Definition bind {A B} (m : M A) (k : A -> M B) : M B :=
  fun s =>
    match m s with
    | (Ok a, s') => k a s'
    | (SysExit msg, s') => (SysExit msg, s')
    | (Raise e, s') => (Raise e, s')
    end.

Notation "x <- m ;; k" := (bind m (fun x => k))
  (at level 100, m at next level, right associativity).
Notation "m ;;; k" := (bind m (fun _ => k))
  (at level 100, right associativity).

Definition lift {A} (o : Outcome A) : M A := fun s => (o, s).
Definition sys_exit {A} (msg : string) : M A := lift (SysExit msg).
Definition get_self : M ConfigKeywordParser := fun s => (Ok (self s), s).
Definition put_self (o : ConfigKeywordParser) : M unit :=
  fun s => (Ok tt, mkState o (source s) (loads s)).

Definition get_source : M ConfigData := fun s => (Ok (source s), s).

(** ** The regular expression of [get_env_name_for_alias]

    The pattern given to [re.findall] is, in order: a group that is not
    captured and carries a star, made of [\s*?] (white space, as little as
    possible), [#], [.*] and [\n*]; then the one captured group,
    [[^#^\n]*].  [re.findall] returns, for every match from left to right,
    what the captured group took.  A match at a position first runs the
    comment group as often as it applies (white space up to a [#], the rest
    of that line, the newlines after it), then captures the longest run of
    characters other than [#], [^] and newline.  A match that consumed
    nothing is followed by a search from the next character; the search
    ends after the match at the end of the string. *)

Module Re.

(** The rest of the line ([.] repeated), the newline not included. *)
Fixpoint skip_line (s : string) : string :=
  match s with
  | EmptyString => EmptyString
  | String c rest => if Ascii.eqb c Py.nl_char then s else skip_line rest
  end.

(** The newlines at the start of [s]. *)
Fixpoint skip_newlines (s : string) : string :=
  match s with
  | EmptyString => EmptyString
  | String c rest => if Ascii.eqb c Py.nl_char then skip_newlines rest else s
  end.

(** One round of the comment group: [None] when the first character after the
    white space is not [#]. *)
Definition comment (s : string) : option string :=
  match Py.lstrip s with
  | String "#" rest => Some (skip_newlines (skip_line rest))
  | _ => None
  end.

(** The comment group repeated: what is left after the comments. *)
Fixpoint comments (fuel : nat) (s : string) : string :=
  match fuel with
  | O => s
  | S fuel' =>
      match comment s with
      | Some rest => comments fuel' rest
      | None => s
      end
  end.

(** A character of the class [[^#^\n]]. *)
Definition captured (c : ascii) : bool :=
  negb (Ascii.eqb c "#" || Ascii.eqb c "^" || Ascii.eqb c Py.nl_char).

(** The capturing group: the captured run and what follows it. *)
Fixpoint capture (s : string) : string * string :=
  match s with
  | EmptyString => (EmptyString, EmptyString)
  | String c rest =>
      if captured c
      then let (cap, r) := capture rest in (String c cap, r)
      else (EmptyString, s)
  end.

(** The matches from the start of [s] on. *)
Fixpoint findall_from (fuel : nat) (s : string) : list string :=
  match fuel with
  | O => []
  | S fuel' =>
      let (cap, rest) := capture (comments (String.length s) s) in
      if (String.length rest =? String.length s)%nat
      then (* nothing consumed *)
        match s with
        | EmptyString => [cap]
        | String _ s' => cap :: findall_from fuel' s'
        end
      else cap :: findall_from fuel' rest
  end.

Definition findall (s : string) : list string :=
  findall_from (S (String.length s)) s.

End Re.

(** ** The inherited methods

    [ConfigKeywordParser] calls these methods of its base classes
    [GenConfigCommon] and [KeywordParser]; their code is not part of this
    development, so the class is verified for any implementation of them.
    A method that reads the configuration is given the contents of the
    file; the loads it may perform are not counted in [loads]. *)
Class KeywordParser : Type := {
  (** [get_values_for_section_key(section, key)] *)
  get_values_for_section_key :
    ConfigData -> string -> string -> Outcome (list string);
  (** [get_formatted_msg(msg, kind=..., extras=...)]; [None] is an
      argument left to its default. *)
  get_formatted_msg : string -> option string -> option string -> string;
  (** [get_msg_for_list(msg, item_list)] *)
  get_msg_for_list : string -> list string -> string;
  (** [assert_kw_str_versions_for_env_name_components_are_supported] *)
  assert_kw_str_versions_for_env_name_components_are_supported :
    ConfigKeywordParser -> ConfigData -> string -> Outcome unit;
  (** [assert_kw_str_node_type_is_supported] *)
  assert_kw_str_node_type_is_supported :
    ConfigKeywordParser -> ConfigData -> string -> Outcome unit
}.

(** ** The class [ConfigKeywordParser] *)

Section Methods.
Context `{KP : KeywordParser}.

Definition set_supported_envs (v : option ConfigData)
    (o : ConfigKeywordParser) : ConfigKeywordParser :=
  mkParser v (supported_envs_filename o) (build_name o) (system_name o)
           (env_names o) (aliases o) (_qualified_env_name o).

Definition set_env_names (v : list string)
    (o : ConfigKeywordParser) : ConfigKeywordParser :=
  mkParser (_supported_envs o) (supported_envs_filename o) (build_name o)
           (system_name o) v (aliases o) (_qualified_env_name o).

Definition set_aliases (v : list string)
    (o : ConfigKeywordParser) : ConfigKeywordParser :=
  mkParser (_supported_envs o) (supported_envs_filename o) (build_name o)
           (system_name o) (env_names o) v (_qualified_env_name o).

Definition set_qualified_env_name (v : option string)
    (o : ConfigKeywordParser) : ConfigKeywordParser :=
  mkParser (_supported_envs o) (supported_envs_filename o) (build_name o)
           (system_name o) (env_names o) (aliases o) v.

(** The property [supported_envs]: every access builds a new
    [ConfigParserEnhanced] from the file and stores its data. *)
Definition supported_envs : M ConfigData :=
  fun s =>
    (Ok (source s),
     mkState (set_supported_envs (Some (source s)) (self s))
             (source s) (S (loads s))).

(** [self.supported_envs[self.system_name]] *)
Definition supported_envs_of_system : M SectionData :=
  se <- supported_envs ;;
  o <- get_self ;;
  lift (getitem se (system_name o)).

Definition assert_alias_list_values_are_unique
    (alias_list : list string) : M unit :=
  let duplicates :=
    List.filter (fun a => (1 <? Py.count a alias_list)%nat)
                (Py.set_iter alias_list) in
  match duplicates with
  | [] => ret tt
  | _ =>
      o <- get_self ;;
      sys_exit (get_msg_for_list
                  ("Aliases for '" +:+ system_name o
                   +:+ "' contains duplicates:")
                  duplicates)
  end.

Definition assert_aliases_not_equal_to_env_names
    (alias_list : list string) : M unit :=
  o <- get_self ;;
  let duplicates :=
    List.filter (fun a => Py.list_in a (env_names o)) alias_list in
  match duplicates with
  | [] => ret tt
  | _ =>
      sys_exit (get_msg_for_list
                  ("Alias found for '" +:+ system_name o
                   +:+ "' that matches an environment name:")
                  duplicates)
  end.

(** The loop of [get_aliases]: [aliases += get_values_for_section_key(...)]
    for every key in turn. *)
Fixpoint gather_aliases (names : list string) (acc : list string)
    : M (list string) :=
  match names with
  | [] => ret acc
  | env_name :: rest =>
      o <- get_self ;;
      cfg <- get_source ;;
      vs <- lift (get_values_for_section_key cfg (system_name o) env_name) ;;
      gather_aliases rest (acc ++ vs)
  end.

Definition get_aliases : M (list string) :=
  sec <- supported_envs_of_system ;;
  aliases <- gather_aliases (keys sec) [] ;;
  assert_alias_list_values_are_unique aliases ;;;
  assert_aliases_not_equal_to_env_names aliases ;;;
  ret aliases.

(** [[_.strip().replace("_", "-") for _ in uncommented_alias_list
      if _ != ""]] with [uncommented_alias_list = re.findall(..., a)]. *)
Definition aliases_for_env (a : string) : list string :=
  map (fun x => Py.replace "_" "-" (Py.strip x))
      (List.filter (fun x => negb (String.eqb x "")) (Re.findall a)).

(** The test of the loop of [get_env_name_for_alias] on one value block:
    a block that is [None] or empty is passed over. *)
Definition block_has_alias (matched_alias : string) (a : option string)
    : bool :=
  match a with
  | None => false
  | Some a =>
      if String.eqb a "" then false
      else Py.list_in matched_alias (aliases_for_env a)
  end.

(** A [for idx, x in enumerate(l)] loop that stops at the first [x]
    passing [p] and keeps its index. *)
Fixpoint first_index {A} (p : A -> bool) (l : list A) : option nat :=
  match l with
  | [] => None
  | x :: xs => if p x then Some 0 else option_map S (first_index p xs)
  end.

Definition get_env_name_for_alias (matched_alias : string) : M string :=
  sec1 <- supported_envs_of_system ;;
  let unsorted_env_names := keys sec1 in
  sec2 <- supported_envs_of_system ;;
  let unparsed_aliases := values sec2 in
  match first_index (block_has_alias matched_alias) unparsed_aliases with
  | None =>
      o <- get_self ;;
      sys_exit (get_formatted_msg
                  ("Unable to find alias '" +:+ matched_alias
                   +:+ "' in aliases for '" +:+ system_name o +:+ "'."
                   +:+ Py.nl)
                  None None)
  | Some matched_index =>
      match unsorted_env_names !! matched_index with
      | Some matched_env_name => ret matched_env_name
      | None => lift (Raise "IndexError")
      end
  end.

(** A list comprehension [[x for x in l if p(x)]] whose test runs a
    method. *)
Fixpoint filterM {A} (p : A -> M bool) (l : list A) : M (list A) :=
  match l with
  | [] => ret []
  | x :: xs =>
      b <- p x ;;
      r <- filterM p xs ;;
      ret (if b then x :: r else r)
  end.

(** The loop [for name in sorted(self.env_names)] of
    [get_msg_showing_supported_environments], [extras] being what was
    written so far. *)
Fixpoint supported_environments_loop (names : list string) (extras : string)
    : M string :=
  match names with
  | [] => ret extras
  | name :: rest =>
      let extras := extras +:+ ("  - " +:+ name +:+ Py.nl) in
      o <- get_self ;;
      owned <- filterM
                 (fun a =>
                    e <- get_env_name_for_alias a ;;
                    ret (String.eqb e name))
                 (aliases o) ;;
      let aliases_for_env := Py.sorted Py.str_lt owned in
      let extras :=
        extras +:+ (if (0 <? length aliases_for_env)%nat
                    then "    * Aliases:" +:+ Py.nl else "") in
      let extras :=
        fold_left (fun extras a => extras +:+ ("      - " +:+ a +:+ Py.nl))
                  aliases_for_env extras in
      supported_environments_loop rest extras
  end.

Definition get_msg_showing_supported_environments
    (msg : string) (kind : string) : M string :=
  o <- get_self ;;
  let extras :=
    Py.nl +:+ "- Supported Environments for '" +:+ system_name o +:+ "':"
    +:+ Py.nl in
  extras <- supported_environments_loop
              (Py.sorted Py.str_lt (env_names o)) extras ;;
  let extras :=
    extras +:+ Py.nl +:+ "See " +:+ supported_envs_filename o
    +:+ " for details." in
  ret (get_formatted_msg msg (Some kind) (Some extras)).

(** A [for] loop that stops ([break]) at the first key found in the build
    name. *)
Definition first_match (candidates : list string) (build_name : string)
    : option string :=
  List.find (fun key => Py.contains key build_name) candidates.

(** What the two loops of [qualified_env_name] find: an environment name,
    or else an alias, or else nothing. *)
Inductive Matched : Type :=
| MatchedName (name : string)
| MatchedAlias (alias : string)
| NotFound.

Definition match_keyword (o : ConfigKeywordParser) : Matched :=
  match first_match (env_names o) (build_name o) with
  | Some name => MatchedName name
  | None =>
      match first_match (aliases o) (build_name o) with
      | Some alias => MatchedAlias alias
      | None => NotFound
      end
  end.

(** The text of the failure when nothing matches. *)
Definition not_found_text (o : ConfigKeywordParser) : string :=
  "Unable to find alias or environment name for system '"
  +:+ system_name o +:+ "' in" +:+ Py.nl +:+ "keyword string '"
  +:+ build_name o +:+ "'.".

(** The property [qualified_env_name].  What [print] writes is left
    out. *)
Definition qualified_env_name : M string :=
  o <- get_self ;;
  match _qualified_env_name o with
  | Some q => ret q
  | None =>
      matched_env_name <-
        match match_keyword o with
        | MatchedName name => ret name
        | MatchedAlias matched_alias => get_env_name_for_alias matched_alias
        | NotFound =>
            msg <- get_msg_showing_supported_environments
                     (not_found_text o) "ERROR" ;;
            sys_exit msg
        end ;;
      o <- get_self ;;
      cfg <- get_source ;;
      lift (assert_kw_str_versions_for_env_name_components_are_supported
              o cfg matched_env_name) ;;;
      lift (assert_kw_str_node_type_is_supported o cfg matched_env_name) ;;;
      let q := system_name o +:+ "-" +:+ matched_env_name in
      put_self (set_qualified_env_name (Some q) o) ;;;
      ret q
  end.

(** [__init__(self, build_name, system_name, supported_envs_filename)] *)
Definition __init__ (build_name' system_name' supported_envs_filename' : string)
    : M unit :=
  put_self (mkParser None supported_envs_filename'
                     (Py.replace "_" "-" build_name') system_name'
                     [] [] None) ;;;
  sec <- supported_envs_of_system ;;
  let env_names := keys sec in
  o <- get_self ;;
  put_self (set_env_names (Py.sorted Py.longer env_names) o) ;;;
  aliases <- get_aliases ;;
  o <- get_self ;;
  put_self (set_aliases (Py.sorted Py.longer aliases) o).

(** [ConfigKeywordParser(build_name, system_name, supported_envs_filename)]
    when the file holds [cfg] and has not been loaded yet. *)
Definition new_parser (build_name' system_name' supported_envs_filename' : string)
    (cfg : ConfigData) : Outcome unit * State :=
  __init__ build_name' system_name' supported_envs_filename'
           (mkState (mkParser None "" "" "" [] [] None) cfg 0).

(** [ConfigKeywordParser(...).qualified_env_name]: construction followed
    by the first read of the property. *)
Definition resolve (build_name' system_name' supported_envs_filename' : string)
    (cfg : ConfigData) : Outcome string * State :=
  (__init__ build_name' system_name' supported_envs_filename' ;;;
   qualified_env_name)
    (mkState (mkParser None "" "" "" [] [] None) cfg 0).

(** *** The failure of the versioned-component check *)

Definition quoted (x : string) : string := "'" +:+ x +:+ "'".

(** Modelled from the spec: the text with which
    [assert_kw_str_versions_for_env_name_components_are_supported] (class
    [KeywordParser], whose code is not part of this development) fails,
    by the number of unsupported components (section 4.3, check 1). *)
Definition unsupported_components_text (unsupported : list string) : string :=
  match unsupported with
  | [] => ""
  | [x] => quoted x +:+ " is not supported"
  | [x; y] =>
      quoted x +:+ " and " +:+ quoted y +:+ " are not supported together"
  | _ =>
      String.concat ", " (map quoted unsupported)
      +:+ " are not supported together"
  end.

(** Modelled from the spec: the end of that check once the unsupported
    components are known; it fails, when there are some, with the text
    above and the listing of the supported environments. *)
Definition reject_unsupported_components (unsupported : list string)
    : M unit :=
  match unsupported with
  | [] => ret tt
  | _ =>
      msg <- get_msg_showing_supported_environments
               (unsupported_components_text unsupported) "ERROR" ;;
      sys_exit msg
  end.

End Methods.

(** ** What the theorems are stated with *)

Section Specification.
Context `{KP : KeywordParser}.

(** The state after [n] more loads of the configuration file. *)
Definition touched (n : nat) (s : State) : State :=
  mkState (set_supported_envs (Some (source s)) (self s))
          (source s) (n + loads s).

(** The values that occur more than once in [l], each once. *)
Definition duplicates_of (l : list string) : list string :=
  List.filter (fun a => (1 <? Py.count a l)%nat) (Py.set_iter l).

(** The members of [l] that are environment names. *)
Definition clashes (names l : list string) : list string :=
  List.filter (fun a => Py.list_in a names) l.

Definition duplicates_header (sys : string) : string :=
  "Aliases for '" +:+ sys +:+ "' contains duplicates:".

Definition clashes_header (sys : string) : string :=
  "Alias found for '" +:+ sys +:+ "' that matches an environment name:".

(** What the loop of [get_aliases] collects. *)
Fixpoint gathered (cfg : ConfigData) (sys : string) (names : list string)
    (acc : list string) : Outcome (list string) :=
  match names with
  | [] => Ok acc
  | env_name :: rest =>
      match get_values_for_section_key cfg sys env_name with
      | Ok vs => gathered cfg sys rest (acc ++ vs)
      | SysExit m => SysExit m
      | Raise e => Raise e
      end
  end.

(** What [get_aliases] returns in a section [sec]. *)
Definition checked_aliases (o : ConfigKeywordParser) (cfg : ConfigData)
    (sec : SectionData) : Outcome (list string) :=
  match gathered cfg (system_name o) (keys sec) [] with
  | Ok al =>
      match duplicates_of al with
      | [] =>
          match clashes (env_names o) al with
          | [] => Ok al
          | d => SysExit (get_msg_for_list (clashes_header (system_name o)) d)
          end
      | d => SysExit (get_msg_for_list (duplicates_header (system_name o)) d)
      end
  | SysExit m => SysExit m
  | Raise e => Raise e
  end.

(** The environment name at the first value block that has the alias. *)
Definition owner_of (sec : SectionData) (a : string) : option string :=
  match first_index (block_has_alias a) (values sec) with
  | Some i => keys sec !! i
  | None => None
  end.

Definition alias_not_found (sys a : string) : string :=
  get_formatted_msg
    ("Unable to find alias '" +:+ a +:+ "' in aliases for '" +:+ sys +:+ "'."
     +:+ Py.nl) None None.

(** What [get_env_name_for_alias] returns in a section [sec]. *)
Definition owner_outcome (sys : string) (sec : SectionData) (a : string)
    : Outcome string :=
  match first_index (block_has_alias a) (values sec) with
  | None => SysExit (alias_not_found sys a)
  | Some i =>
      match keys sec !! i with
      | Some k => Ok k
      | None => Raise "IndexError"
      end
  end.

(** The aliases of [al] whose environment name is [name]. *)
Definition owned (sec : SectionData) (name : string) (al : list string)
    : list string :=
  List.filter
    (fun a =>
       match owner_of sec a with
       | Some e => String.eqb e name
       | None => false
       end) al.

(** The lines of one environment in the listing: its name, then, when it
    has aliases, the heading and one line for each. *)
Definition env_lines (name : string) (als : list string) : string :=
  ("  - " +:+ name +:+ Py.nl)
  +:+ (if (0 <? length als)%nat then "    * Aliases:" +:+ Py.nl else "")
  +:+ String.concat "" (map (fun a => "      - " +:+ a +:+ Py.nl) als).

(** The lines of the environments [names], each with the aliases of [al]
    it owns, sorted. *)
Definition listing (sec : SectionData) (al names : list string) : string :=
  String.concat ""
    (map (fun name => env_lines name (Py.sorted Py.str_lt (owned sec name al)))
         names).

(** The extras of [get_msg_showing_supported_environments]. *)
Definition supported_environments_extras (o : ConfigKeywordParser)
    (sec : SectionData) : string :=
  (Py.nl +:+ "- Supported Environments for '" +:+ system_name o +:+ "':"
   +:+ Py.nl)
  +:+ listing sec (aliases o) (Py.sorted Py.str_lt (env_names o))
  +:+ (Py.nl +:+ "See " +:+ supported_envs_filename o +:+ " for details.").

(** The configuration data is stored in the object already. *)
Definition warm (s : State) : Prop :=
  _supported_envs (self s) = Some (source s).

(** Every alias of [al] is found in some value block of [sec]. *)
Definition resolvable (sec : SectionData) (al : list string) : Prop :=
  forall a, In a al -> exists k, owner_of sec a = Some k.

(** [get_values_for_section_key] and [get_env_name_for_alias] read the
    value blocks of [sec] alike: the aliases the first returns for a key
    are those the second finds in the value block of that key. *)
Definition reads_blocks_alike (cfg : ConfigData) (sys : string)
    (sec : SectionData) : Prop :=
  forall k v l,
    In (k, v) sec ->
    get_values_for_section_key cfg sys k = Ok l ->
    forall a, In a l <-> block_has_alias a v = true.

(** The object [__init__] leaves behind, for the section [sec] of the
    system and the aliases [al] gathered from it. *)
Definition constructed (b sys file : string) (cfg : ConfigData)
    (sec : SectionData) (al : list string) : State :=
  mkState (mkParser (Some cfg) file (Py.replace "_" "-" b) sys
                    (Py.sorted Py.longer (keys sec))
                    (Py.sorted Py.longer al) None)
          cfg 2.

(** The strings of length [n]. *)
Definition has_length (n : nat) (x : string) : bool :=
  (String.length x =? n)%nat.

(** [x] is not shorter than [y]. *)
Definition at_least_as_long (x y : string) : Prop :=
  String.length y <= String.length x.

(** [sorted] is [orig] with the longest strings first and strings of one
    length in the order of [orig]. *)
Definition longest_first (orig sorted : list string) : Prop :=
  Permutation sorted orig
  /\ StronglySorted at_least_as_long sorted
  /\ forall n,
       List.filter (has_length n) sorted
       = List.filter (has_length n) orig.

(** [r] is what a walk through [l] finds in [c]: the first member of [l]
    that is in [c], or nothing when no member is. *)
Definition first_in_walk (l : list string) (c : string) (r : option string)
    : Prop :=
  match r with
  | Some k =>
      exists l1 l2,
        l = l1 ++ k :: l2 /\ Py.contains k c = true
        /\ forall x, In x l1 -> Py.contains x c = false
  | None => forall x, In x l -> Py.contains x c = false
  end.

(** The state [s] with the cached result [q]. *)
Definition cached (q : string) (s : State) : State :=
  mkState (set_qualified_env_name (Some q) (self s)) (source s) (loads s).

(** The state [s] with [al] for [self.aliases]. *)
Definition with_aliases (al : list string) (s : State) : State :=
  mkState (set_aliases al (self s)) (source s) (loads s).

(** The end of [qualified_env_name] once the environment name is known:
    the two checks of the keyword string, then the result is stored. *)
Definition validate_and_store (matched_env_name : string) : M string :=
  o <- get_self ;;
  cfg <- get_source ;;
  lift (assert_kw_str_versions_for_env_name_components_are_supported
          o cfg matched_env_name) ;;;
  lift (assert_kw_str_node_type_is_supported o cfg matched_env_name) ;;;
  let q := system_name o +:+ "-" +:+ matched_env_name in
  put_self (set_qualified_env_name (Some q) o) ;;;
  ret q.

(** Both checks of the keyword string accept it for the name [e]. *)
Definition accepted (s : State) (e : string) : Prop :=
  assert_kw_str_versions_for_env_name_components_are_supported
    (self s) (source s) e = Ok tt
  /\ assert_kw_str_node_type_is_supported (self s) (source s) e = Ok tt.

(** [extras] lists the environment names of [sec] in increasing order,
    each followed by its aliases (what [get_values_for_section_key]
    returns for it) in increasing order. *)
Definition lists_supported_environments (cfg : ConfigData)
    (sys file : string) (sec : SectionData) (extras : string) : Prop :=
  exists (names : list string) (als : string -> list string),
    Permutation names (keys sec)
    /\ StronglySorted String.le names
    /\ (forall name, In name names ->
          StronglySorted String.le (als name)
          /\ forall a, In a (als name)
                       <-> exists l, get_values_for_section_key cfg sys name
                                     = Ok l /\ In a l)
    /\ extras
       = (Py.nl +:+ "- Supported Environments for '" +:+ sys +:+ "':"
          +:+ Py.nl)
         +:+ String.concat ""
               (map (fun name => env_lines name (als name)) names)
         +:+ (Py.nl +:+ "See " +:+ file +:+ " for details.").

End Specification.

(** ** An implementation of the inherited methods

    Used to run the class on concrete configurations.  The theorems below
    hold for every implementation; this one only supplies inputs. *)

Module Plain.

(** [section[key]] in one section. *)
Fixpoint section_value (sec : SectionData) (key : string)
    : option (option string) :=
  match sec with
  | [] => None
  | (k, v) :: rest => if String.eqb k key then Some v else section_value rest key
  end.

Fixpoint has_space (s : string) : bool :=
  match s with
  | EmptyString => false
  | String c rest => Py.isspace c || has_space rest
  end.

(** Modelled from the spec: [get_values_for_section_key] of the class
    [KeywordParser] (section 4.1): the value block of the entry is read
    line by line, comments and surrounding white space are dropped, empty
    lines are discarded, and underscores become hyphens; an alias with
    white space inside is a fatal error that lists every such alias.  The
    lines are read as [get_env_name_for_alias] reads them. *)
Definition get_values (cfg : ConfigData) (section key : string)
    : Outcome (list string) :=
  match getitem cfg section with
  | Ok sec =>
      match section_value sec key with
      | None => Raise "KeyError"
      | Some None => Ok []
      | Some (Some a) =>
          let raw :=
            map Py.strip
                (List.filter (fun x => negb (String.eqb x "")) (Re.findall a)) in
          match List.filter has_space raw with
          | [] => Ok (map (Py.replace "_" "-") raw)
          | bad =>
              SysExit
                (String.concat ""
                   ((if (1 <? length bad)%nat
                     then "The following aliases contain whitespace:"
                     else "The following alias contains whitespace:")
                    :: map (fun x => Py.nl +:+ "  - " +:+ x) bad))
          end
      end
  | SysExit m => SysExit m
  | Raise e => Raise e
  end.

(** Messages without the frame of the real ones: the kind, the text and
    the extras. *)
Definition formatted_msg (msg : string) (kind extras : option string)
    : string :=
  match kind with Some k => k | None => "ERROR" end
  +:+ ":  " +:+ msg +:+ Py.nl
  +:+ match extras with Some e => e | None => "" end.

Definition msg_for_list (msg : string) (items : list string) : string :=
  formatted_msg msg None
    (Some (String.concat ""
             (map (fun x => "  - " +:+ x +:+ Py.nl) items))).

(** The two checks of the keyword string accept every keyword string. *)
Definition parser : KeywordParser := {|
  get_values_for_section_key := get_values;
  get_formatted_msg := formatted_msg;
  get_msg_for_list := msg_for_list;
  assert_kw_str_versions_for_env_name_components_are_supported :=
    fun _ _ _ => Ok tt;
  assert_kw_str_node_type_is_supported := fun _ _ _ => Ok tt
|}.

End Plain.

(** ** Sample configurations *)

Module Sample.

Definition lines (ls : list string) : string := String.concat Py.nl ls.

(** The configuration of the class documentation. *)
Definition machine_type_5_envs : SectionData :=
  [("intel-18.0.5-mpich-7.7.6",
    Some (lines ["# Environment name 1";
                 "intel-18    # Alias 1 for ^^^";
                 "intel       # Alias 2 for ^^^";
                 "default-env # ..."]));
   ("intel-19.0.4-mpich-7.7.6",
    Some (lines ["# Environment name 2"; "intel-19"]))].

Definition machine_type_5 : ConfigData :=
  [("machine-type-5", machine_type_5_envs)].

(** Two environments, one a prefix of the other. *)
Definition two_intels_envs : SectionData :=
  [("intel", Some "gnu"); ("intel-19", Some "")].

Definition two_intels : ConfigData := [("sys", two_intels_envs)].

(** An alias listed twice and an alias that is an environment name. *)
Definition twice_and_clash_envs : SectionData :=
  [("gnu-7", Some (lines ["gnu"; "gnu"; "cuda-9"]));
   ("cuda-9", Some "cuda")].

Definition twice_and_clash : ConfigData := [("sys", twice_and_clash_envs)].

(** Two aliases listed twice, one of them under two environments. *)
Definition two_twice_envs : SectionData :=
  [("gnu-7", Some (lines ["gnu"; "gnu"; "cuda"])); ("cuda-9", Some "cuda")].

Definition two_twice : ConfigData := [("sys", two_twice_envs)].

(** An alias that is an environment name, and no alias listed twice. *)
Definition clash_only_envs : SectionData :=
  [("gnu-7", Some (lines ["gnu"; "cuda-9"])); ("cuda-9", Some "cuda")].

Definition clash_only : ConfigData := [("sys", clash_only_envs)].

(** The object at the point where [__init__] calls [get_aliases]: the
    environment names are set, the aliases are not, the file was loaded
    once. *)
Definition before_aliases (sys : string) (cfg : ConfigData)
    (sec : SectionData) : State :=
  mkState (mkParser (Some cfg) "supported-envs.ini" "" sys
                    (Py.sorted Py.longer (keys sec)) [] None)
          cfg 1.

End Sample.

(** ** Loads and characters *)

(** [s'] is [s] after some loads of the configuration file: nothing else
    of the object has changed. *)
Definition after_loads (s s' : State) : Prop :=
  s' = s \/ exists n, s' = touched n s.

(** The characters of a string. *)
Definition chars (s : string) : list ascii := list_ascii_of_string s.

(** The method [m] leaves the object as it was, apart from loading the
    configuration. *)
Definition frames {A} (m : M A) : Prop :=
  forall s, after_loads s (snd (m s)).

(** ** The class [LoadEnv]

    [load_env.py]: the system a build is for is found from the build name
    or else from the name of the host.  The file [supported-systems.ini]
    has one section for a system; the keys of a section are patterns for
    the names of the hosts of that system. *)
Module LoadEnv.

(** The parsed command line, [self.args], as far as the methods below
    read it.  [__init__] parses the command line, so that the methods
    find it stored. *)
Record Args : Type := mkArgs {
  build_name : string;
  force : bool;
  supported_systems_file : string
}.

(** The attributes of a [LoadEnv] object the methods below use. *)
Record LoadEnv : Type := mkLoadEnv {
  args : Args;
  supported_systems_data : ConfigData;
  system_name : option string
}.

Definition set_system_name (v : option string) (o : LoadEnv) : LoadEnv :=
  mkLoadEnv (args o) (supported_systems_data o) v.

(** The methods of the base class [LoadEnvCommon] that [LoadEnv] calls;
    their code is not part of this development. *)
Class LoadEnvCommon : Type := {
  (** [get_formatted_msg(msg)] *)
  get_formatted_msg : string -> string;
  (** [get_msg_for_list(msg, item_list)] *)
  get_msg_for_list : string -> list string -> string
}.

(** [re.findall(pattern, string)] for a pattern that comes from the
    configuration: the matches, whatever they are made of (strings, or
    tuples when the pattern has groups), or the exception of a pattern
    that does not compile. *)
Class Regex : Type := {
  Match : Type;
  re_findall : string -> string -> Outcome (list Match)
}.

Section Methods.
Context `{LC : LoadEnvCommon} `{RE : Regex}.

(** [data.sections()]: the names of the sections in file order. *)
Definition sections (data : ConfigData) : list string := map fst data.

(** [[s for s in self.supported_systems_data.sections()
      if s != "DEFAULT"]] *)
Definition sys_names (self : LoadEnv) : list string :=
  List.filter (fun s => negb (String.eqb s "DEFAULT"))
              (sections (supported_systems_data self)).

(** A character of the class [[^#^\s]]. *)
Definition key_char (c : ascii) : bool :=
  negb (Ascii.eqb c "#" || Ascii.eqb c "^" || Py.isspace c).

(** The first match of the pattern that strips a key of its comment,
    [re.findall(..., key)[0]].  The pattern is one captured group, a
    starred [[^#^\s]], followed by an optional group that is not
    captured (white space, [#], the rest of the line).  It matches at the
    start of every key, empty matches included, and the captured group
    takes the longest run of characters of its class. *)
Fixpoint strip_comment (key : string) : string :=
  match key with
  | EmptyString => EmptyString
  | String c rest =>
      if key_char c then String c (strip_comment rest) else EmptyString
  end.

(** The loop [for key in keys: matches += re.findall(key, hostname)]. *)
Fixpoint find_matches (keys : list string) (hostname : string)
    (matches : list Match) : Outcome (list Match) :=
  match keys with
  | [] => Ok matches
  | key :: rest =>
      match re_findall key hostname with
      | Ok found => find_matches rest hostname (matches ++ found)
      | SysExit m => SysExit m
      | Raise e => Raise e
      end
  end.

(** The loop [for sys_name in sys_names] of [get_sys_name_from_hostname],
    left at the first system with a match. *)
Fixpoint search_systems (self : LoadEnv) (names : list string)
    (hostname : string) : Outcome (option string) :=
  match names with
  | [] => Ok None
  | sys_name :: rest =>
      match getitem (supported_systems_data self) sys_name with
      | Ok sec =>
          let keys := map strip_comment (keys sec) in
          match find_matches keys hostname [] with
          | Ok matches =>
              if (0 <? length matches)%nat then Ok (Some sys_name)
              else search_systems self rest hostname
          | SysExit m => SysExit m
          | Raise e => Raise e
          end
      | SysExit m => SysExit m
      | Raise e => Raise e
      end
  end.

Definition get_sys_name_from_hostname (self : LoadEnv) (hostname : string)
    : Outcome (option string) :=
  search_systems self (sys_names self) hostname.

(** The system names that are in the build name. *)
Definition sys_name_from_build_names (self : LoadEnv) : list string :=
  List.filter (fun x => Py.contains x (build_name (args self)))
              (sys_names self).

Definition more_than_one_text : string :=
  "Cannot specify more than one system name in the build name" +:+ Py.nl
  +:+ "You specified".

Definition get_sys_name_from_build_name (self : LoadEnv)
    : Outcome (option string) :=
  let found := sys_name_from_build_names self in
  if (1 <? length found)%nat then
    SysExit (get_msg_for_list more_than_one_text found)
  else if (length found =? 0)%nat then Ok None
  else
    match found !! 0%nat with
    | Some x => Ok (Some x)
    | None => Raise "IndexError"
    end.

(** The text of the failure of [determine_system] when neither the build
    name nor the host gives a system. *)
Definition no_system_text (hostname file : string) : string :=
  "Unable to find valid system name in the build name or for the hostname '"
  +:+ hostname +:+ "'" +:+ Py.nl +:+ " in '" +:+ file +:+ "'.".

(** The text of its failure when they give different systems. *)
Definition mismatch_text (hostname from_hostname file from_build_name : string)
    : string :=
  "Hostname '" +:+ hostname +:+ "' matched to system '" +:+ from_hostname
  +:+ "'" +:+ Py.nl +:+ " in '" +:+ file +:+ "', but you specified '"
  +:+ from_build_name +:+ "' in the build name." +:+ Py.nl
  +:+ "If you want to force the use of '" +:+ from_build_name
  +:+ "', add the --force flag.".

(** [determine_system], [hostname] being what [socket.gethostname()]
    returns.  The object is returned with the outcome: [self.system_name]
    is assigned before the checks that may leave the method. *)
Definition determine_system (hostname : string) (self : LoadEnv)
    : Outcome unit * LoadEnv :=
  match system_name self with
  | Some _ => (Ok tt, self)
  | None =>
      match get_sys_name_from_hostname self hostname with
      | Ok sys_name_from_hostname =>
          let self := set_system_name sys_name_from_hostname self in
          match get_sys_name_from_build_name self with
          | Ok sys_name_from_build_name =>
              match sys_name_from_hostname, sys_name_from_build_name with
              | None, None =>
                  (SysExit
                     (get_formatted_msg
                        (no_system_text
                           hostname (supported_systems_file (args self)))),
                   self)
              | _, None => (Ok tt, self)
              | _, Some from_build_name =>
                  let self := set_system_name (Some from_build_name) self in
                  match sys_name_from_hostname with
                  | Some from_hostname =>
                      if negb (String.eqb from_hostname from_build_name)
                         && negb (force (args self))
                      then
                        (SysExit
                           (get_formatted_msg
                              (mismatch_text
                                 hostname from_hostname
                                 (supported_systems_file (args self))
                                 from_build_name)),
                         self)
                      else (Ok tt, self)
                  | None => (Ok tt, self)
                  end
              end
          | SysExit m => (SysExit m, self)
          | Raise e => (Raise e, self)
          end
      | SysExit m => (SysExit m, self)
      | Raise e => (Raise e, self)
      end
  end.

End Methods.

(** Every key of the section [sec] finds nothing in [hostname]. *)
Definition quiet `{RE : Regex} (sec : SectionData) (hostname : string)
    : Prop :=
  forall k, In k (keys sec) -> re_findall (strip_comment k) hostname = Ok [].

(** Every key of [sec] is a pattern that compiles, and one of them finds
    something in [hostname]. *)
Definition answers `{RE : Regex} (sec : SectionData) (hostname : string)
    : Prop :=
  (forall k, In k (keys sec) ->
             exists found, re_findall (strip_comment k) hostname = Ok found)
  /\ exists k found,
       In k (keys sec)
       /\ re_findall (strip_comment k) hostname = Ok found
       /\ found <> [].

End LoadEnv.

(** A small engine for examples.  A pattern with [(] in it stands for one
    that does not compile; any other pattern is read as plain text,
    found where it occurs. *)
Module Literal.

Definition findall (pattern hostname : string) : Outcome (list string) :=
  if Py.contains "(" pattern then Raise "re.error"
  else Ok (if Py.contains pattern hostname then [pattern] else []).

#[export] Instance regex : LoadEnv.Regex :=
  {| LoadEnv.Match := string; LoadEnv.re_findall := findall |}.

#[export] Instance common : LoadEnv.LoadEnvCommon :=
  {| LoadEnv.get_formatted_msg := fun msg => msg;
     LoadEnv.get_msg_for_list :=
       fun msg l =>
         msg +:+ String.concat "" (map (fun x => Py.nl +:+ "  - " +:+ x) l) |}.

(** Three systems, the name of the second inside the name of the
    first. *)
Definition systems : ConfigData :=
  [("machine-type-5-gpu", [("gpu-node  # the nodes with a GPU", None)]);
   ("machine-type-5", [("mutrino", None); ("login", None)]);
   ("blake", [("blake", None)]);
   ("DEFAULT", [])].

(** A system whose second key does not compile. *)
Definition broken : ConfigData :=
  [("machine-type-4", [("white", None)]);
   ("machine-type-5", [("mutrino", None); ("login(", None)])].

Definition load_env (b : string) (f : bool) : LoadEnv.LoadEnv :=
  LoadEnv.mkLoadEnv (LoadEnv.mkArgs b f "supported-systems.ini") systems None.

Definition broken_env : LoadEnv.LoadEnv :=
  LoadEnv.mkLoadEnv (LoadEnv.mkArgs "any" false "supported-systems.ini")
                    broken None.

End Literal.

(** * Proofs *)

(** ** Facts about strings and sorting *)

Module PyFacts.

Lemma app_cons (x : ascii) (a b : string) :
  String x a +:+ b = String x (a +:+ b).
Proof. reflexivity. Qed.

Lemma app_nil_r (s : string) : s +:+ "" = s.
Proof.
  induction s as [|c s IH]; [reflexivity|]. by rewrite app_cons, IH.
Qed.

Lemma app_assoc (a b c : string) : (a +:+ b) +:+ c = a +:+ (b +:+ c).
Proof.
  induction a as [|x a IH]; [reflexivity|]. by rewrite !app_cons, IH.
Qed.

Lemma prefix_iff (k c : string) :
  String.prefix k c = true <-> exists post, c = k +:+ post.
Proof.
  revert c. induction k as [|x k IH]; intros c.
  - split; [intros _; by exists c|intros _; by destruct c].
  - destruct c as [|y c]; cbn.
    + split; [discriminate|]. intros [post Hp]. discriminate.
    + destruct (ascii_dec x y) as [->|Hne].
      * rewrite IH. split; intros [post Hp]; exists post.
        -- by rewrite Hp.
        -- by injection Hp.
      * split; [discriminate|]. intros [post Hp]. injection Hp. congruence.
Qed.

(** [needle in hay] holds exactly when [hay] is [needle] with something
    before and something after it. *)
Lemma contains_iff (k c : string) :
  Py.contains k c = true <-> exists pre post, c = pre +:+ k +:+ post.
Proof.
  induction c as [|y c IH]; cbn [Py.contains].
  - rewrite prefix_iff. split.
    + intros [post Hp]. by exists "", post.
    + intros [pre [post Hp]]. destruct pre; [by exists post|discriminate].
  - rewrite orb_true_iff, prefix_iff, IH. split.
    + intros [[post Hp]|[pre [post Hp]]].
      * by exists "", post.
      * exists (String y pre), post. by rewrite Hp.
    + intros [pre [post Hp]]. destruct pre as [|z pre].
      * left. by exists post.
      * right. exists pre, post. by injection Hp.
Qed.

Lemma replace_idem (old new : ascii) (s : string) :
  old <> new ->
  Py.replace old new (Py.replace old new s) = Py.replace old new s.
Proof.
  intros Hne. induction s as [|c s IH]; [reflexivity|]. cbn. rewrite IH.
  f_equal. destruct (Ascii.eqb_spec c old) as [->|Hc].
  - destruct (Ascii.eqb_spec new old); congruence.
  - destruct (Ascii.eqb_spec c old); congruence.
Qed.

Lemma replace_app (old new : ascii) (a b : string) :
  Py.replace old new (a +:+ b) = Py.replace old new a +:+ Py.replace old new b.
Proof.
  induction a as [|c a IH]; [reflexivity|].
  rewrite app_cons. cbn [Py.replace]. by rewrite IH, app_cons.
Qed.

(** A key without underscores that is in the build name as it was typed
    is in the build name the object keeps. *)
Lemma contains_normalised (k b : string) :
  Py.replace "_" "-" k = k ->
  Py.contains k b = true ->
  Py.contains k (Py.replace "_" "-" b) = true.
Proof.
  intros Hk. rewrite !contains_iff. intros (pre & post & ->).
  exists (Py.replace "_" "-" pre), (Py.replace "_" "-" post).
  by rewrite !replace_app, Hk.
Qed.

Section SortedFacts.
Context {A : Type} (before : A -> A -> bool).

Lemma insert_sorted_perm (x : A) (l : list A) :
  Permutation (Py.insert_sorted before x l) (x :: l).
Proof.
  induction l as [|y l IH]; cbn; [done|].
  destruct (before y x); [|done].
  rewrite IH. apply perm_swap.
Qed.

Lemma sorted_perm (l : list A) : Permutation (Py.sorted before l) l.
Proof.
  induction l as [|x l IH]; cbn; [done|].
  rewrite insert_sorted_perm. by constructor.
Qed.

Lemma sorted_In (x : A) (l : list A) : In x (Py.sorted before l) <-> In x l.
Proof.
  split; apply Permutation_in; [|symmetry]; apply sorted_perm.
Qed.

Lemma sorted_length (l : list A) : length (Py.sorted before l) = length l.
Proof. apply Permutation_length, sorted_perm. Qed.

Context (R : A -> A -> Prop).
Hypothesis before_R : forall y x, before y x = true -> R y x.
Hypothesis not_before_R : forall y x, before y x = false -> R x y.

Lemma insert_sorted_Sorted (x : A) (l : list A) :
  Sorted R l -> Sorted R (Py.insert_sorted before x l).
Proof.
  induction l as [|y l IH]; cbn; intros Hs.
  - by repeat constructor.
  - destruct (before y x) eqn:Hb.
    + inversion Hs as [|? ? Hl Hhd]; subst. constructor; [by apply IH|].
      destruct l as [|z l]; cbn.
      * constructor. by apply before_R.
      * destruct (before z x); constructor; [|by apply before_R].
        by inversion Hhd.
    + constructor; [done|]. constructor. by apply not_before_R.
Qed.

Lemma sorted_Sorted (l : list A) : Sorted R (Py.sorted before l).
Proof.
  induction l as [|x l IH]; cbn; [constructor|].
  by apply insert_sorted_Sorted.
Qed.

End SortedFacts.

(** Stability: the elements that [sel] picks keep their order, provided
    elements picked together are never strictly ordered. *)
Section Stable.
Context {A : Type} (before : A -> A -> bool) (sel : A -> bool).
Hypothesis sel_together :
  forall x y, sel x = true -> sel y = true -> before y x = false.

Lemma insert_sorted_filter (x : A) (m : list A) :
  List.filter sel (Py.insert_sorted before x m) = List.filter sel (x :: m).
Proof.
  induction m as [|y m IHm]; [reflexivity|].
  cbn [Py.insert_sorted]. destruct (before y x) eqn:Hb; [|reflexivity].
  cbn [List.filter] in *. rewrite IHm.
  destruct (sel x) eqn:Hx, (sel y) eqn:Hy; try reflexivity.
  rewrite (sel_together x y Hx Hy) in Hb. discriminate.
Qed.

Lemma sorted_stable (l : list A) :
  List.filter sel (Py.sorted before l) = List.filter sel l.
Proof.
  induction l as [|x l IH]; [reflexivity|].
  cbn [Py.sorted]. rewrite insert_sorted_filter. cbn [List.filter].
  by rewrite IH.
Qed.

End Stable.

(** [sorted(l, key=len, reverse=True)]: the same strings, the longest
    first, strings of one length in the order they had. *)
Lemma sorted_longer (l : list string) :
  Permutation (Py.sorted Py.longer l) l
  /\ StronglySorted at_least_as_long (Py.sorted Py.longer l)
  /\ forall n,
       List.filter (has_length n) (Py.sorted Py.longer l)
       = List.filter (has_length n) l.
Proof.
  split; [apply sorted_perm|]. split.
  - apply Sorted_StronglySorted.
    + intros x y z. unfold at_least_as_long. lia.
    + apply sorted_Sorted; intros y x; unfold Py.longer, at_least_as_long.
      * intros H%Nat.ltb_lt. lia.
      * intros H%Nat.ltb_ge. lia.
  - intros n. apply sorted_stable. intros x y Hx Hy.
    unfold has_length in *. apply Nat.eqb_eq in Hx, Hy.
    unfold Py.longer. apply Nat.ltb_ge. lia.
Qed.

(** [sorted(l)] on strings: the same strings in increasing order. *)
Lemma sorted_str_lt (l : list string) :
  Permutation (Py.sorted Py.str_lt l) l
  /\ StronglySorted String.le (Py.sorted Py.str_lt l).
Proof.
  split; [apply sorted_perm|].
  apply Sorted_StronglySorted; [apply _|].
  apply sorted_Sorted; intros y x; unfold Py.str_lt, String.ltb, String.le, String.leb.
  - destruct (String.compare y x); cbn; intros H; (exact I || discriminate H).
  - rewrite (String.compare_antisym x y).
    destruct (String.compare y x); cbn; intros H; (exact I || discriminate H).
Qed.

End PyFacts.

(** ** The fuel of the regular expression is enough *)

Module ReFacts.

Lemma lstrip_length (s : string) :
  String.length (Py.lstrip s) <= String.length s.
Proof.
  induction s as [|c s IH]; cbn; [lia|]. destruct (Py.isspace c); cbn; lia.
Qed.

Lemma skip_line_length (s : string) :
  String.length (Re.skip_line s) <= String.length s.
Proof.
  induction s as [|c s IH]; cbn; [lia|].
  destruct (Ascii.eqb c Py.nl_char); cbn; lia.
Qed.

Lemma skip_newlines_length (s : string) :
  String.length (Re.skip_newlines s) <= String.length s.
Proof.
  induction s as [|c s IH]; cbn; [lia|].
  destruct (Ascii.eqb c Py.nl_char); cbn; lia.
Qed.

(** A round of the comment group consumes at least the [#]. *)
Lemma comment_length (s rest : string) :
  Re.comment s = Some rest -> String.length rest < String.length s.
Proof.
  unfold Re.comment. pose proof (lstrip_length s) as Hs.
  destruct (Py.lstrip s) as [|c r]; [discriminate|].
  destruct (Ascii.eqb_spec c "#") as [->|Hne].
  - intros [= <-]. pose proof (skip_line_length r).
    pose proof (skip_newlines_length (Re.skip_line r)). cbn in Hs. lia.
  - destruct c as [[] [] [] [] [] [] [] []]; try discriminate. congruence.
Qed.

Lemma comments_length (n : nat) (s : string) :
  String.length (Re.comments n s) <= String.length s.
Proof.
  revert s. induction n as [|n IH]; intros s; cbn; [lia|].
  destruct (Re.comment s) as [rest|] eqn:Hc; [|lia].
  apply comment_length in Hc. specialize (IH rest). lia.
Qed.

Lemma comments_more_fuel (n : nat) (s : string) :
  String.length s <= n -> Re.comments (S n) s = Re.comments n s.
Proof.
  revert s. induction n as [|n IH]; intros s Hn.
  - destruct s; [reflexivity|cbn in Hn; lia].
  - cbn [Re.comments]. destruct (Re.comment s) as [rest|] eqn:Hc; [|done].
    apply comment_length in Hc. rewrite <- IH by lia. reflexivity.
Qed.

(** Every amount of fuel from the length of the string on gives the
    same: the repetition of the comment group has come to its end. *)
Lemma comments_fuel (n : nat) (s : string) :
  String.length s <= n -> Re.comments n s = Re.comments (String.length s) s.
Proof.
  induction n as [|n IH]; intros Hn.
  - by replace (String.length s) with 0 by lia.
  - destruct (decide (String.length s = S n)) as [->|Hne]; [done|].
    rewrite comments_more_fuel by lia. apply IH. lia.
Qed.

Lemma capture_length (s : string) :
  String.length (snd (Re.capture s)) <= String.length s.
Proof.
  induction s as [|c s IH]; cbn; [lia|].
  destruct (Re.captured c); [|cbn; lia].
  destruct (Re.capture s); cbn in *. lia.
Qed.

Lemma findall_more_fuel (n : nat) (s : string) :
  String.length s < n -> Re.findall_from (S n) s = Re.findall_from n s.
Proof.
  revert s. induction n as [|n IH]; intros s Hn; [lia|].
  cbn [Re.findall_from].
  pose proof (capture_length (Re.comments (String.length s) s)) as Hcap.
  pose proof (comments_length (String.length s) s) as Hcom.
  destruct (Re.capture (Re.comments (String.length s) s)) as [cap rest].
  cbn [snd] in Hcap.
  destruct (Nat.eqb_spec (String.length rest) (String.length s)) as [Heq|Hne].
  - destruct s as [|c s']; [reflexivity|].
    cbn in Hn. destruct n as [|n]; [lia|]. rewrite <- IH by lia. reflexivity.
  - destruct n as [|n]; [lia|]. rewrite <- IH by lia. reflexivity.
Qed.

(** Every amount of fuel above the length of the string gives the
    matches of [Re.findall]. *)
Lemma findall_fuel (n : nat) (s : string) :
  String.length s < n -> Re.findall_from n s = Re.findall s.
Proof.
  unfold Re.findall. induction n as [|n IH]; intros Hn; [lia|].
  destruct (decide (String.length s = n)) as [->|Hne]; [done|].
  rewrite findall_more_fuel by lia. apply IH. lia.
Qed.

End ReFacts.

(** ** What the methods compute *)

Section Runs.
Context `{KP : KeywordParser}.

Lemma touched_touched (n m : nat) (s : State) :
  touched n (touched m s) = touched (n + m) s.
Proof. unfold touched. cbn. f_equal. lia. Qed.

Lemma supported_envs_of_system_run (s : State) :
  supported_envs_of_system s
  = (getitem (source s) (system_name (self s)), touched 1 s).
Proof. reflexivity. Qed.

Lemma gather_aliases_run (names acc : list string) (s : State) :
  gather_aliases names acc s
  = (gathered (source s) (system_name (self s)) names acc, s).
Proof.
  revert acc. induction names as [|k names IH]; intros acc; [reflexivity|].
  cbn [gather_aliases gathered]. unfold bind at 1. cbn.
  destruct (get_values_for_section_key _ _ k); try reflexivity. apply IH.
Qed.

Lemma unique_run (al : list string) (s : State) :
  assert_alias_list_values_are_unique al s
  = (match duplicates_of al with
     | [] => Ok tt
     | d => SysExit (get_msg_for_list
                       (duplicates_header (system_name (self s))) d)
     end, s).
Proof.
  unfold assert_alias_list_values_are_unique. fold (duplicates_of al).
  destruct (duplicates_of al); reflexivity.
Qed.

Lemma not_equal_run (al : list string) (s : State) :
  assert_aliases_not_equal_to_env_names al s
  = (match clashes (env_names (self s)) al with
     | [] => Ok tt
     | d => SysExit (get_msg_for_list
                       (clashes_header (system_name (self s))) d)
     end, s).
Proof.
  unfold assert_aliases_not_equal_to_env_names, bind. cbn.
  fold (clashes (env_names (self s)) al).
  destruct (clashes _ al); reflexivity.
Qed.

Lemma get_aliases_run (s : State) (sec : SectionData) :
  getitem (source s) (system_name (self s)) = Ok sec ->
  get_aliases s = (checked_aliases (self s) (source s) sec, touched 1 s).
Proof.
  intros Hsec. unfold get_aliases. unfold bind at 1.
  rewrite supported_envs_of_system_run, Hsec.
  unfold bind at 1. rewrite gather_aliases_run. unfold checked_aliases.
  cbn [touched source self system_name set_supported_envs env_names].
  destruct (gathered _ _ _ _) as [al| |]; try reflexivity.
  unfold bind at 1. rewrite unique_run. cbn [self system_name set_supported_envs].
  destruct (duplicates_of al); [|reflexivity].
  unfold bind at 1. rewrite not_equal_run.
  cbn [self system_name env_names set_supported_envs].
  destruct (clashes _ al); reflexivity.
Qed.

Lemma new_parser_ok (b sys file : string) (cfg : ConfigData) (s : State) :
  new_parser b sys file cfg = (Ok tt, s) <->
  exists sec al,
    getitem cfg sys = Ok sec
    /\ gathered cfg sys (keys sec) [] = Ok al
    /\ duplicates_of al = []
    /\ clashes (Py.sorted Py.longer (keys sec)) al = []
    /\ s = constructed b sys file cfg sec al.
Proof.
  unfold new_parser, __init__. unfold bind at 1. cbn [put_self source loads].
  unfold bind at 1. rewrite supported_envs_of_system_run.
  cbn [source self system_name touched set_supported_envs
       supported_envs_filename build_name env_names aliases
       _qualified_env_name loads].
  destruct (getitem cfg sys) as [sec| |] eqn:Hsec.
  2,3: split; [discriminate|intros (? & ? & ? & _); simplify_eq; congruence].
  unfold bind at 1. cbn [get_self]. unfold bind at 1. cbn [put_self source loads self].
  unfold bind at 1.
  erewrite get_aliases_run by (cbn; exact Hsec).
  unfold checked_aliases.
  cbn [source self system_name touched set_supported_envs set_env_names
       supported_envs_filename build_name env_names aliases
       _qualified_env_name loads].
  destruct (gathered cfg sys (keys sec) []) as [al| |] eqn:Hal.
  2,3: split; [discriminate|intros (? & ? & ? & ? & _); simplify_eq; congruence].
  destruct (duplicates_of al) eqn:Hd.
  2: split; [discriminate|intros (? & ? & ? & ? & ? & _); simplify_eq; congruence].
  destruct (clashes _ al) eqn:Hc.
  2: split; [discriminate|intros (? & ? & ? & ? & ? & ? & _); simplify_eq; congruence].
  unfold put_self, touched, constructed, set_aliases, set_env_names,
    set_supported_envs; cbn. split.
  - intros [= <-]. exists sec, al. repeat split; done.
  - intros (? & ? & ? & ? & _ & _ & ->). simplify_eq. congruence.
Qed.

Lemma touched_warm (s : State) : warm s -> touched 0 s = s.
Proof.
  destruct s as [[se f b sy ns al q] src n]. unfold warm, touched. cbn.
  by intros ->.
Qed.

Lemma first_index_Some {A} (p : A -> bool) (l : list A) (i : nat) :
  first_index p l = Some i <->
  exists x, l !! i = Some x /\ p x = true
            /\ forall j y, j < i -> l !! j = Some y -> p y = false.
Proof.
  revert i. induction l as [|x l IH]; intros i; cbn.
  - split; [discriminate|]. by intros (? & ? & _).
  - destruct (p x) eqn:Hp.
    + split.
      * intros [= <-]. exists x. repeat split; [done|]. intros; lia.
      * intros (y & Hy & Hpy & Hlt). destruct i as [|i]; [done|].
        specialize (Hlt 0 x ltac:(lia) eq_refl). congruence.
    + destruct i as [|i].
      * split.
        -- destruct (first_index p l); discriminate.
        -- intros (y & [= <-] & Hpy & _). congruence.
      * transitivity (first_index p l = Some i).
        { destruct (first_index p l); cbn; split; congruence. }
        rewrite IH. split; intros (y & Hy & Hpy & Hlt); exists y.
        -- repeat split; [done..|].
           intros [|j] z Hj Hz; cbn in Hz; [congruence|].
           apply (Hlt j); [lia|done].
        -- repeat split; [done..|].
           intros j z Hj Hz. apply (Hlt (S j)); [lia|done].
Qed.

Lemma keys_values_lookup (sec : SectionData) (i : nat) (k : string)
    (v : option string) :
  sec !! i = Some (k, v) <-> keys sec !! i = Some k /\ values sec !! i = Some v.
Proof.
  unfold keys, values. rewrite !list_lookup_fmap.
  destruct (sec !! i) as [[k' v']|]; cbn; split.
  - intros [= -> ->]. by split.
  - by intros [[= ->] [= ->]].
  - discriminate.
  - by intros [? _].
Qed.

Lemma owner_of_Some (sec : SectionData) (a k : string) :
  owner_of sec a = Some k <->
  exists i v, sec !! i = Some (k, v) /\ block_has_alias a v = true
              /\ forall j k' v', j < i -> sec !! j = Some (k', v') ->
                                 block_has_alias a v' = false.
Proof.
  unfold owner_of. split.
  - destruct (first_index _ _) as [i|] eqn:Hi; [|discriminate].
    intros Hk. apply first_index_Some in Hi as (v & Hv & Hp & Hlt).
    exists i, v. repeat split; [by apply keys_values_lookup|done|].
    intros j k' v' Hj Hjv. apply keys_values_lookup in Hjv as [_ Hjv].
    by apply (Hlt j).
  - intros (i & v & Hi & Hp & Hlt). apply keys_values_lookup in Hi as [Hk Hv].
    assert (first_index (block_has_alias a) (values sec) = Some i) as ->; [|done].
    apply first_index_Some. exists v. repeat split; [done..|].
    intros j v' Hj Hjv.
    destruct (keys sec !! j) as [k'|] eqn:Hkj.
    + apply (Hlt j k' v' Hj). by apply keys_values_lookup.
    + apply lookup_ge_None in Hkj. apply lookup_lt_Some in Hjv.
      unfold keys, values in *. rewrite length_map in *. lia.
Qed.

Lemma owner_outcome_Some (sys : string) (sec : SectionData) (a k : string) :
  owner_of sec a = Some k -> owner_outcome sys sec a = Ok k.
Proof.
  unfold owner_of, owner_outcome.
  destruct (first_index _ _); [|discriminate]. by intros ->.
Qed.

Lemma get_env_name_for_alias_run (a : string) (s : State)
    (sec : SectionData) :
  getitem (source s) (system_name (self s)) = Ok sec ->
  get_env_name_for_alias a s
  = (owner_outcome (system_name (self s)) sec a, touched 2 s).
Proof.
  intros Hsec. unfold get_env_name_for_alias. unfold bind at 1.
  rewrite supported_envs_of_system_run, Hsec. unfold bind at 1.
  rewrite supported_envs_of_system_run.
  cbn [touched source self system_name set_supported_envs]. rewrite Hsec.
  unfold owner_outcome, alias_not_found.
  destruct (first_index _ _) as [i|]; [|reflexivity].
  destruct (keys sec !! i); reflexivity.
Qed.

Lemma filter_owned_run (name : string) (al : list string) (s : State)
    (sec : SectionData) :
  warm s ->
  getitem (source s) (system_name (self s)) = Ok sec ->
  resolvable sec al ->
  filterM (fun a => e <- get_env_name_for_alias a ;; ret (String.eqb e name))
          al s
  = (Ok (owned sec name al), touched (2 * length al) s).
Proof.
  revert s. induction al as [|a al IH]; intros s Hw Hsec Hres.
  - cbn. by rewrite touched_warm.
  - cbn [filterM]. unfold bind at 1. unfold bind at 1.
    rewrite (get_env_name_for_alias_run a s sec Hsec).
    destruct (Hres a ltac:(by left)) as [k Hk].
    rewrite (owner_outcome_Some _ _ _ _ Hk). cbn [ret].
    unfold bind at 1.
    rewrite IH; [|done|done|intros b Hb; apply Hres; by right].
    rewrite touched_touched. cbn [ret owned List.filter length]. rewrite Hk.
    unfold ret, owned.
    replace (2 * length al + 2) with (2 * S (length al)) by lia.
    reflexivity.
Qed.

Lemma concat_cons (x : string) (l : list string) :
  String.concat "" (x :: l) = x +:+ String.concat "" l.
Proof.
  destruct l as [|y l]; cbn [String.concat].
  - by rewrite PyFacts.app_nil_r.
  - reflexivity.
Qed.

Lemma fold_left_app (f : string -> string) (l : list string) (e : string) :
  fold_left (fun extras a => extras +:+ f a) l e
  = e +:+ String.concat "" (map f l).
Proof.
  revert e. induction l as [|a l IH]; intros e; cbn [fold_left map].
  - by rewrite PyFacts.app_nil_r.
  - by rewrite IH, concat_cons, PyFacts.app_assoc.
Qed.

Lemma supported_environments_loop_run (names : list string)
    (extras : string) (s : State) (sec : SectionData) :
  warm s ->
  getitem (source s) (system_name (self s)) = Ok sec ->
  resolvable sec (aliases (self s)) ->
  supported_environments_loop names extras s
  = (Ok (extras +:+ listing sec (aliases (self s)) names),
     touched (2 * (length names * length (aliases (self s)))) s).
Proof.
  revert extras s. induction names as [|name names IH];
    intros extras s Hw Hsec Hres.
  - cbn. by rewrite touched_warm, PyFacts.app_nil_r.
  - cbn [supported_environments_loop]. unfold bind at 1. cbn [get_self].
    unfold bind at 1. rewrite (filter_owned_run name _ s sec Hw Hsec Hres).
    rewrite IH; [|done|done|done].
    rewrite touched_touched.
    cbn [touched self aliases set_supported_envs length].
    f_equal.
    + f_equal. unfold listing. cbn [map]. rewrite concat_cons.
      rewrite fold_left_app. unfold env_lines.
      by rewrite !PyFacts.app_assoc.
    + f_equal. lia.
Qed.

Lemma get_msg_showing_supported_environments_run (msg kind : string)
    (s : State) (sec : SectionData) :
  warm s ->
  getitem (source s) (system_name (self s)) = Ok sec ->
  resolvable sec (aliases (self s)) ->
  get_msg_showing_supported_environments msg kind s
  = (Ok (get_formatted_msg msg (Some kind)
           (Some (supported_environments_extras (self s) sec))),
     touched (2 * (length (env_names (self s))
                   * length (aliases (self s)))) s).
Proof.
  intros Hw Hsec Hres. unfold get_msg_showing_supported_environments.
  unfold bind at 1. cbn [get_self]. unfold bind at 1.
  rewrite (supported_environments_loop_run _ _ s sec Hw Hsec Hres).
  rewrite PyFacts.sorted_length. unfold ret, supported_environments_extras.
  by rewrite !PyFacts.app_assoc.
Qed.

End Runs.

Section Facts.
Context `{KP : KeywordParser}.

Lemma filter_nil {A} (p : A -> bool) (l : list A) :
  List.filter p l = [] <-> forall x, In x l -> p x = false.
Proof.
  induction l as [|x l IH]; cbn.
  - split; [intros _ ? []|done].
  - destruct (p x) eqn:Hp.
    + split; [discriminate|]. intros H. rewrite H in Hp; [done|by left].
    + rewrite IH. split.
      * intros H y [<-|Hy]; [done|by apply H].
      * intros H y Hy. apply H. by right.
Qed.

Lemma set_iter_In (a : string) (l : list string) :
  In a (Py.set_iter l) <-> In a l.
Proof.
  unfold Py.set_iter.
  by rewrite <- !list_elem_of_In, elem_of_elements, elem_of_list_to_set.
Qed.

Lemma set_iter_NoDup (l : list string) : NoDup (Py.set_iter l).
Proof. unfold Py.set_iter. apply NoDup_elements. Qed.

Lemma duplicates_of_In (a : string) (l : list string) :
  In a (duplicates_of l) <-> 1 < Py.count a l.
Proof.
  unfold duplicates_of. rewrite filter_In, set_iter_In, Nat.ltb_lt.
  split; [by intros [_ ?]|]. intros H. split; [|done].
  apply (count_occ_In string_dec). unfold Py.count in H. lia.
Qed.

Lemma duplicates_of_NoDup (l : list string) : NoDup (duplicates_of l).
Proof.
  apply NoDup_ListNoDup, List.NoDup_filter, NoDup_ListNoDup, set_iter_NoDup.
Qed.

Lemma duplicates_of_nil (l : list string) :
  duplicates_of l = [] <-> NoDup l.
Proof.
  rewrite NoDup_ListNoDup, (NoDup_count_occ string_dec). split.
  - intros H a. destruct (le_gt_dec (count_occ string_dec l a) 1); [done|].
    assert (In a (duplicates_of l)) as Ha.
    { apply duplicates_of_In. unfold Py.count. lia. }
    rewrite H in Ha. destruct Ha.
  - intros H. destruct (duplicates_of l) as [|a d] eqn:Hd; [done|].
    assert (In a (duplicates_of l)) as Ha by (rewrite Hd; by left).
    apply duplicates_of_In in Ha. specialize (H a). unfold Py.count in Ha. lia.
Qed.

Lemma list_in_In (a : string) (l : list string) :
  Py.list_in a l = true <-> In a l.
Proof.
  unfold Py.list_in. rewrite existsb_exists. split.
  - by intros (x & Hx & ->%String.eqb_eq).
  - intros H. exists a. by rewrite String.eqb_refl.
Qed.

Lemma clashes_In (names l : list string) (a : string) :
  In a (clashes names l) <-> In a l /\ In a names.
Proof. unfold clashes. by rewrite filter_In, list_in_In. Qed.

Lemma clashes_nil (names l : list string) :
  clashes names l = [] <-> forall a, In a l -> ~ In a names.
Proof.
  unfold clashes. rewrite filter_nil. split; intros H a Ha.
  - rewrite <- list_in_In. rewrite (H a Ha). discriminate.
  - specialize (H a Ha). rewrite <- list_in_In in H.
    by destruct (Py.list_in a names).
Qed.

Lemma gathered_Ok (cfg : ConfigData) (sys : string) (names acc al : list string) :
  gathered cfg sys names acc = Ok al <->
  exists ls,
    Forall2 (fun k l => get_values_for_section_key cfg sys k = Ok l) names ls
    /\ al = acc ++ concat ls.
Proof.
  revert acc. induction names as [|k names IH]; intros acc; cbn [gathered].
  - split.
    + intros [= <-]. exists []. split; [constructor|]. by rewrite app_nil_r.
    + intros (ls & Hf & ->). inversion Hf; subst. cbn. by rewrite app_nil_r.
  - destruct (get_values_for_section_key cfg sys k) as [vs| |] eqn:Hk.
    + rewrite IH. split.
      * intros (ls & Hf & ->). exists (vs :: ls). split; [by constructor|].
        cbn. by rewrite app_assoc.
      * intros (ls & Hf & ->). inversion Hf as [|? l ? ls' Hkl Hf']; subst.
        assert (l = vs) as -> by congruence.
        exists ls'. split; [done|]. cbn. by rewrite app_assoc.
    + split; [discriminate|]. intros (ls & Hf & _). inversion Hf; congruence.
    + split; [discriminate|]. intros (ls & Hf & _). inversion Hf; congruence.
Qed.

Lemma In_concat_lookup {A} (ls : list (list A)) (a : A) :
  In a (concat ls) <-> exists i l, ls !! i = Some l /\ In a l.
Proof.
  rewrite in_concat. split.
  - intros (l & Hl & Ha). apply list_elem_of_In, list_elem_of_lookup in Hl as [i Hi].
    by exists i, l.
  - intros (i & l & Hi & Ha). exists l. split; [|done].
    apply list_elem_of_In, list_elem_of_lookup. by exists i.
Qed.

Lemma NoDup_concat_lookup {A} (ls : list (list A)) (a : A) (i j : nat)
    (l l' : list A) :
  NoDup (concat ls) ->
  ls !! i = Some l -> ls !! j = Some l' -> In a l -> In a l' -> i = j.
Proof.
  revert i j. induction ls as [|l0 ls IH]; intros i j Hnd Hi Hj Ha Ha'.
  - discriminate.
  - cbn in Hnd. apply NoDup_app in Hnd as (Hl0 & Hdisj & Hnd).
    destruct i as [|i], j as [|j]; cbn in Hi, Hj.
    + done.
    + injection Hi as ->. exfalso.
      apply (Hdisj a); [by apply list_elem_of_In|].
      apply list_elem_of_In, In_concat_lookup. by exists j, l'.
    + injection Hj as ->. exfalso.
      apply (Hdisj a); [by apply list_elem_of_In|].
      apply list_elem_of_In, In_concat_lookup. by exists i, l.
    + f_equal. by apply IH.
Qed.

(** Where an alias that was gathered without repetition lives: in one
    value block only, and [get_env_name_for_alias] finds the name of that
    block. *)
Lemma gathered_owner (cfg : ConfigData) (sys : string) (sec : SectionData)
    (al : list string) (a : string) :
  reads_blocks_alike cfg sys sec ->
  gathered cfg sys (keys sec) [] = Ok al ->
  NoDup al ->
  In a al ->
  exists i k v l,
    sec !! i = Some (k, v)
    /\ get_values_for_section_key cfg sys k = Ok l
    /\ In a l
    /\ block_has_alias a v = true
    /\ owner_of sec a = Some k
    /\ forall j k' v', sec !! j = Some (k', v') ->
                       block_has_alias a v' = true -> j = i.
Proof.
  intros Hagree Hg Hnd Ha. apply gathered_Ok in Hg as (ls & Hf & ->).
  cbn in Hnd, Ha. apply In_concat_lookup in Ha as (i & l & Hi & Hal).
  destruct (Forall2_lookup_r _ _ _ _ _ Hf Hi) as (k & Hk & Hkl).
  destruct (sec !! i) as [[k0 v]|] eqn:Hsi.
  2: { apply lookup_ge_None in Hsi. apply lookup_lt_Some in Hk.
       unfold keys in Hk. rewrite length_map in Hk. lia. }
  assert (k0 = k) as ->.
  { apply keys_values_lookup in Hsi as [Hk0 _]. congruence. }
  assert (In (k, v) sec) as Hin.
  { apply list_elem_of_In, list_elem_of_lookup. by exists i. }
  assert (block_has_alias a v = true) as Hb by (by apply (Hagree k v l)).
  assert (forall j k' v', sec !! j = Some (k', v') ->
                          block_has_alias a v' = true -> j = i) as Huniq.
  { intros j k' v' Hj Hb'.
    assert (keys sec !! j = Some k') as Hkj
      by (by apply keys_values_lookup in Hj as [? _]).
    destruct (Forall2_lookup_l _ _ _ _ _ Hf Hkj) as (l' & Hlj & Hkl').
    assert (In a l') as Hal'.
    { apply (Hagree k' v' l'); [|done..].
      apply list_elem_of_In, list_elem_of_lookup. by exists j. }
    by apply (NoDup_concat_lookup ls a j i l' l). }
  exists i, k, v, l. repeat split; try done.
  apply owner_of_Some. exists i, v. repeat split; [done..|].
  intros j k' v' Hj Hsj.
  destruct (block_has_alias a v') eqn:Hb'; [|done].
  specialize (Huniq j k' v' Hsj Hb'). lia.
Qed.

Lemma gathered_resolvable (cfg : ConfigData) (sys : string)
    (sec : SectionData) (al : list string) :
  reads_blocks_alike cfg sys sec ->
  gathered cfg sys (keys sec) [] = Ok al ->
  NoDup al ->
  resolvable sec (Py.sorted Py.longer al).
Proof.
  intros Hagree Hg Hnd a Ha. apply PyFacts.sorted_In in Ha.
  destruct (gathered_owner cfg sys sec al a Hagree Hg Hnd Ha)
    as (i & k & v & l & _ & _ & _ & _ & Hk & _).
  by exists k.
Qed.

End Facts.

(** ** The properties *)

Section Properties.
Context `{KP : KeywordParser}.

Lemma first_match_walk (l : list string) (c : string) :
  first_in_walk l c (first_match l c).
Proof.
  unfold first_match. induction l as [|x l IH]; cbn.
  - intros ? [].
  - destruct (Py.contains x c) eqn:Hx.
    + exists [], l. repeat split; [done|]. intros ? [].
    + destruct (find _ l) as [k|].
      * destruct IH as (l1 & l2 & -> & Hk & Hl1).
        exists (x :: l1), l2. repeat split; [done|].
        intros y [<-|Hy]; [done|by apply Hl1].
      * intros y [<-|Hy]; [done|by apply IH].
Qed.

Lemma first_match_Some_In (l : list string) (c k : string) :
  first_match l c = Some k -> In k l /\ Py.contains k c = true.
Proof.
  intros H. pose proof (first_match_walk l c) as Hw. rewrite H in Hw.
  destruct Hw as (l1 & l2 & -> & Hk & _). split; [|done].
  apply in_or_app. right. by left.
Qed.

Lemma first_match_found (l : list string) (c k : string) :
  In k l -> Py.contains k c = true -> exists k', first_match l c = Some k'.
Proof.
  intros Hin Hk. destruct (first_match l c) as [k'|] eqn:Hf; [by exists k'|].
  pose proof (first_match_walk l c) as Hw. rewrite Hf in Hw.
  rewrite (Hw k Hin) in Hk. discriminate.
Qed.

Lemma first_match_None (l : list string) (c : string) :
  (forall x, In x l -> Py.contains x c = false) -> first_match l c = None.
Proof.
  intros H. destruct (first_match l c) as [k|] eqn:Hk; [|done].
  apply first_match_Some_In in Hk as [Hin Hc]. rewrite (H k Hin) in Hc.
  discriminate.
Qed.

(** A name of one length is never matched when a longer one of the same
    list is in the candidate. *)
Lemma first_match_longest (l : list string) (c k k' : string) :
  first_match (Py.sorted Py.longer l) c = Some k ->
  In k' l -> Py.contains k' c = true ->
  String.length k' <= String.length k.
Proof.
  intros Hf Hin Hk'. pose proof (first_match_walk (Py.sorted Py.longer l) c) as Hw.
  rewrite Hf in Hw. destruct Hw as (l1 & l2 & Hl & Hk & Hl1).
  destruct (PyFacts.sorted_longer l) as (_ & Hs & _). rewrite Hl in Hs.
  apply (PyFacts.sorted_In Py.longer) in Hin. rewrite Hl in Hin.
  apply in_app_or in Hin as [Hin|[<-|Hin]].
  - rewrite (Hl1 k' Hin) in Hk'. discriminate.
  - done.
  - apply StronglySorted_app_1_r, StronglySorted_cons in Hs as [Hall _].
    rewrite List.Forall_forall in Hall. by apply Hall.
Qed.

Ltac fields :=
  cbn [constructed with_aliases cached touched self source loads
       set_aliases set_env_names set_supported_envs set_qualified_env_name
       _supported_envs supported_envs_filename build_name system_name
       env_names aliases _qualified_env_name] in *.

Lemma qualified_env_name_fresh (s : State) :
  _qualified_env_name (self s) = None ->
  qualified_env_name s
  = (matched_env_name <-
       match match_keyword (self s) with
       | MatchedName name => ret name
       | MatchedAlias matched_alias => get_env_name_for_alias matched_alias
       | NotFound =>
           msg <- get_msg_showing_supported_environments
                    (not_found_text (self s)) "ERROR" ;;
           sys_exit msg
       end ;;
     validate_and_store matched_env_name) s.
Proof.
  intros Hq. unfold qualified_env_name. unfold bind at 1. cbn [get_self].
  by rewrite Hq.
Qed.

Lemma validate_and_store_Ok (e q : string) (s s' : State) :
  validate_and_store e s = (Ok q, s') <->
  accepted s e
  /\ q = system_name (self s) +:+ "-" +:+ e
  /\ s' = cached q s.
Proof.
  unfold validate_and_store, accepted. unfold bind at 1. cbn [get_self].
  unfold bind at 1. cbn [get_source]. unfold bind at 1. unfold lift at 1.
  destruct (assert_kw_str_versions_for_env_name_components_are_supported _ _ _)
    as [[]| |].
  2,3: split; [discriminate|by intros [[? _] _]].
  unfold bind at 1. unfold lift at 1.
  destruct (assert_kw_str_node_type_is_supported _ _ _) as [[]| |].
  2,3: split; [discriminate|by intros [[_ ?] _]].
  unfold bind at 1. unfold put_self at 1, ret, cached. split.
  - by intros [= <- <-].
  - by intros (_ & -> & ->).
Qed.

Lemma qualified_env_name_cached (q : string) (s : State) :
  qualified_env_name (cached q s) = (Ok q, cached q s).
Proof. reflexivity. Qed.

Lemma qualified_env_name_by_name (s : State) (e : string) :
  _qualified_env_name (self s) = None ->
  match_keyword (self s) = MatchedName e ->
  accepted s e ->
  qualified_env_name s
  = (Ok (system_name (self s) +:+ "-" +:+ e),
     cached (system_name (self s) +:+ "-" +:+ e) s).
Proof.
  intros Hq Hm Hacc. rewrite (qualified_env_name_fresh s Hq), Hm.
  unfold bind at 1. cbn [ret]. by apply validate_and_store_Ok.
Qed.

(** C1. When the candidate (the build name with its underscores turned
    into hyphens) contains an environment name [n] of the system,
    resolution matches an environment name [e] that the candidate
    contains, no shorter than [n], and, the two checks of the keyword
    string accepting it, returns [system_name-e].  The alias list plays no part: the same [e] is
    matched and the same name returned whatever list stands in
    [self.aliases], an alias of another environment that occurs in the
    candidate included, and the configuration is not loaded again. *)
Theorem name_match_needs_no_alias (b sys file : string) (cfg : ConfigData)
    (s : State) (sec : SectionData) (n : string) :
  new_parser b sys file cfg = (Ok tt, s) ->
  getitem cfg sys = Ok sec ->
  In n (keys sec) ->
  Py.contains n (Py.replace "_" "-" b) = true ->
  exists e,
    In e (keys sec)
    /\ Py.contains e (Py.replace "_" "-" b) = true
    /\ String.length n <= String.length e
    /\ match_keyword (self s) = MatchedName e
    /\ (accepted s e ->
        qualified_env_name s
        = (Ok (sys +:+ "-" +:+ e), cached (sys +:+ "-" +:+ e) s))
    /\ forall al : list string,
         match_keyword (self (with_aliases al s)) = MatchedName e
         /\ (accepted (with_aliases al s) e ->
             qualified_env_name (with_aliases al s)
             = (Ok (sys +:+ "-" +:+ e),
                cached (sys +:+ "-" +:+ e) (with_aliases al s))).
Proof.
  intros Hnew Hsec Hn Hc.
  apply new_parser_ok in Hnew as (sec' & al0 & Hsec' & Hg & Hd & Hcl & ->).
  assert (sec' = sec) as -> by congruence.
  destruct (first_match_found (Py.sorted Py.longer (keys sec))
              (Py.replace "_" "-" b) n) as [e He]; [|done|].
  { by apply PyFacts.sorted_In. }
  destruct (first_match_Some_In _ _ _ He) as [Hin Hce].
  apply PyFacts.sorted_In in Hin.
  assert (forall al, match_keyword
                       (self (with_aliases al (constructed b sys file cfg sec al0)))
                     = MatchedName e) as Hm.
  { intros al. unfold match_keyword. fields. by rewrite He. }
  exists e. repeat split; try done.
  - by apply (first_match_longest (keys sec) (Py.replace "_" "-" b)).
  - unfold match_keyword. fields. by rewrite He.
  - intros Hacc. apply qualified_env_name_by_name; [done| |done].
    unfold match_keyword. fields. by rewrite He.
  - intros Hacc.
    exact (qualified_env_name_by_name
             (with_aliases al (constructed b sys file cfg sec al0)) e
             eq_refl (Hm al) Hacc).
Qed.

(** C2. The environment names, and after them the aliases, are walked
    longest first, strings of one length in the order of the
    configuration, and the first key of the walk that is in the candidate
    is the match; no key of the walk that is in the candidate is longer
    than the match.  With the names [intel] and [intel-19] and the
    candidate [intel-19-foo] the match is never [intel], and it is
    [intel-19] when these are the two names of the section. *)
Theorem longest_key_is_matched_first (b sys file : string) (cfg : ConfigData)
    (s : State) (sec : SectionData) :
  new_parser b sys file cfg = (Ok tt, s) ->
  getitem cfg sys = Ok sec ->
  exists al,
    gathered cfg sys (keys sec) [] = Ok al
    /\ longest_first (keys sec) (env_names (self s))
    /\ longest_first al (aliases (self s))
    /\ first_in_walk (env_names (self s)) (build_name (self s))
         (first_match (env_names (self s)) (build_name (self s)))
    /\ first_in_walk (aliases (self s)) (build_name (self s))
         (first_match (aliases (self s)) (build_name (self s)))
    /\ match_keyword (self s)
       = match first_match (env_names (self s)) (build_name (self s)) with
         | Some name => MatchedName name
         | None =>
             match first_match (aliases (self s)) (build_name (self s)) with
             | Some alias => MatchedAlias alias
             | None => NotFound
             end
         end
    /\ (forall k k', match_keyword (self s) = MatchedName k ->
                     In k' (keys sec) ->
                     Py.contains k' (build_name (self s)) = true ->
                     String.length k' <= String.length k)
    /\ (forall k k', match_keyword (self s) = MatchedAlias k ->
                     In k' al ->
                     Py.contains k' (build_name (self s)) = true ->
                     String.length k' <= String.length k)
    /\ (In "intel" (keys sec) -> In "intel-19" (keys sec) ->
        build_name (self s) = "intel-19-foo" ->
        exists k, match_keyword (self s) = MatchedName k
                  /\ k <> "intel"
                  /\ (Permutation (keys sec) ["intel"; "intel-19"] ->
                      k = "intel-19")).
Proof.
  intros Hnew Hsec.
  apply new_parser_ok in Hnew as (sec' & al & Hsec' & Hg & Hd & Hcl & ->).
  assert (sec' = sec) as -> by congruence. fields.
  assert (forall k k', match_keyword (self (constructed b sys file cfg sec al))
                       = MatchedName k ->
                       In k' (keys sec) ->
                       Py.contains k' (Py.replace "_" "-" b) = true ->
                       String.length k' <= String.length k) as Hlong.
  { intros k k'. unfold match_keyword. fields.
    destruct (first_match (Py.sorted Py.longer (keys sec)) _) as [k0|] eqn:Hf.
    - intros [= <-]. by apply first_match_longest.
    - by destruct (first_match (Py.sorted Py.longer al) _). }
  exists al. split; [done|].
  split; [apply PyFacts.sorted_longer|].
  split; [apply PyFacts.sorted_longer|].
  split; [apply first_match_walk|].
  split; [apply first_match_walk|].
  split; [reflexivity|].
  split; [exact Hlong|].
  split.
  - intros k k'. unfold match_keyword. fields.
    destruct (first_match (Py.sorted Py.longer (keys sec)) _); [discriminate|].
    destruct (first_match (Py.sorted Py.longer al) _) as [k0|] eqn:Hf;
      [|discriminate].
    intros [= <-]. by apply first_match_longest.
  - intros Hi Hi19 Hb.
    destruct (first_match_found (Py.sorted Py.longer (keys sec))
                (Py.replace "_" "-" b) "intel-19") as [k Hk].
    { by apply PyFacts.sorted_In. }
    { by rewrite Hb. }
    assert (match_keyword (self (constructed b sys file cfg sec al))
            = MatchedName k) as Hm.
    { unfold match_keyword. fields. by rewrite Hk. }
    exists k. split; [exact Hm|].
    assert (8 <= String.length k) as Hlen.
    { apply (Hlong k "intel-19" Hm Hi19). by rewrite Hb. }
    split.
    + intros ->. cbn in Hlen. lia.
    + intros Hp. apply first_match_Some_In in Hk as [Hin _].
      apply PyFacts.sorted_In in Hin.
      apply (Permutation_in _ Hp) in Hin as [<-|[<-|[]]]; [|done].
      cbn in Hlen. lia.
Qed.

(** C7. Turning the underscores of the build name into hyphens before
    giving it to the parser changes nothing: the object built and the
    outcome of the resolution, the name or the failure, are the same. *)
Theorem underscores_are_hyphens (b sys file : string) (cfg : ConfigData) :
  new_parser (Py.replace "_" "-" b) sys file cfg = new_parser b sys file cfg
  /\ resolve (Py.replace "_" "-" b) sys file cfg = resolve b sys file cfg.
Proof.
  unfold resolve, new_parser, __init__.
  rewrite PyFacts.replace_idem; [done|discriminate].
Qed.

Lemma first_match_app (l1 l2 : list string) (c : string) :
  first_match (l1 ++ l2) c
  = match first_match l1 c with
    | Some k => Some k
    | None => first_match l2 c
    end.
Proof.
  unfold first_match. induction l1 as [|x l1 IH]; cbn; [done|].
  by destruct (Py.contains x c).
Qed.

Lemma first_match_at (l1 l2 : list string) (c k : string) :
  (forall x, In x l1 -> Py.contains x c = false) ->
  Py.contains k c = true ->
  first_match (l1 ++ k :: l2) c = Some k.
Proof.
  intros Hl1 Hk. rewrite first_match_app, (first_match_None l1 c Hl1).
  unfold first_match. cbn. by rewrite Hk.
Qed.

(** C10. A key that stands anywhere in the candidate, whatever is around
    it, keeps the matcher from finding nothing: a key that is in the
    candidate is matched, and it is that key when no key walked before it
    (the environment names, then the aliases) is in the candidate as
    well, in particular when it is the only one. *)
Theorem substring_anywhere_matches (o : ConfigKeywordParser)
    (k pre post : string) :
  build_name o = pre +:+ k +:+ post ->
  In k (env_names o) \/ In k (aliases o) ->
  match_keyword o <> NotFound
  /\ (exists k', (match_keyword o = MatchedName k'
                  \/ match_keyword o = MatchedAlias k')
                 /\ Py.contains k' (build_name o) = true)
  /\ (forall l1 l2,
        env_names o ++ aliases o = l1 ++ k :: l2 ->
        (forall x, In x l1 -> Py.contains x (build_name o) = false) ->
        match_keyword o = MatchedName k \/ match_keyword o = MatchedAlias k)
  /\ ((forall x, In x (env_names o ++ aliases o) -> x <> k ->
                 Py.contains x (build_name o) = false) ->
      match_keyword o = MatchedName k \/ match_keyword o = MatchedAlias k).
Proof.
  intros Hb Hin.
  assert (Py.contains k (build_name o) = true) as Hk.
  { apply PyFacts.contains_iff. by exists pre, post. }
  assert (forall k', first_match (env_names o ++ aliases o) (build_name o)
                     = Some k' ->
                     match_keyword o = MatchedName k'
                     \/ match_keyword o = MatchedAlias k') as Hwalk.
  { intros k'. rewrite first_match_app. unfold match_keyword.
    destruct (first_match (env_names o) (build_name o)) as [n|].
    - intros [= ->]. by left.
    - intros ->. by right. }
  destruct (first_match_found (env_names o ++ aliases o) (build_name o) k)
    as [k' Hk']; [apply in_or_app; tauto|done|].
  pose proof (Hwalk k' Hk') as Hm.
  apply first_match_Some_In in Hk' as [Hin' Hc'].
  split; [destruct Hm as [-> | ->]; discriminate|].
  split; [by exists k'|].
  split.
  - intros l1 l2 Hl Hl1. apply Hwalk. rewrite Hl. by apply first_match_at.
  - intros Honly. destruct (String.eqb_spec k' k) as [->|Hne]; [done|].
    rewrite Honly in Hc'; [discriminate|done..].
Qed.

Lemma checked_aliases_Ok (o : ConfigKeywordParser) (cfg : ConfigData)
    (sec : SectionData) (al : list string) :
  checked_aliases o cfg sec = Ok al <->
  gathered cfg (system_name o) (keys sec) [] = Ok al
  /\ duplicates_of al = [] /\ clashes (env_names o) al = [].
Proof.
  unfold checked_aliases.
  destruct (gathered cfg (system_name o) (keys sec) []) as [al'| |].
  2,3: split; [discriminate|by intros [? _]].
  destruct (duplicates_of al') eqn:Hd.
  2: { split; [discriminate|]. intros ([= ->] & ? & _). congruence. }
  destruct (clashes (env_names o) al') eqn:Hc.
  2: { split; [discriminate|]. intros ([= ->] & _ & ?). congruence. }
  split.
  - intros [= ->]. by repeat split.
  - by intros ([= ->] & _).
Qed.

(** C4. When the aliases gathered for a section hold a value more than
    once, [get_aliases] fails with the message for duplicates, made from
    a list that has every value that occurs more than once exactly once;
    when no value is repeated the check of uniqueness passes and
    [get_aliases] goes on with the check against the environment
    names. *)
Theorem duplicated_aliases_are_fatal (s : State) (sec : SectionData)
    (al : list string) :
  getitem (source s) (system_name (self s)) = Ok sec ->
  gathered (source s) (system_name (self s)) (keys sec) [] = Ok al ->
  ((exists a, 1 < Py.count a al) ->
   exists d,
     fst (get_aliases s)
     = SysExit (get_msg_for_list
                  (duplicates_header (system_name (self s))) d)
     /\ NoDup d
     /\ forall a, In a d <-> 1 < Py.count a al)
  /\ (NoDup al ->
      assert_alias_list_values_are_unique al s = (Ok tt, s)
      /\ fst (get_aliases s)
         = match clashes (env_names (self s)) al with
           | [] => Ok al
           | d => SysExit (get_msg_for_list
                             (clashes_header (system_name (self s))) d)
           end).
Proof.
  intros Hsec Hg. rewrite (get_aliases_run s sec Hsec). cbn [fst].
  unfold checked_aliases. rewrite Hg. split.
  - intros [a Ha]. exists (duplicates_of al).
    split; [|split; [apply duplicates_of_NoDup|intros x; apply duplicates_of_In]].
    destruct (duplicates_of al) eqn:Hd; [|done].
    apply duplicates_of_In in Ha. rewrite Hd in Ha. destruct Ha.
  - intros Hnd. apply duplicates_of_nil in Hnd.
    rewrite unique_run, Hnd. done.
Qed.

(** C5, as the code has it.  The aliases [get_aliases] returns are never
    environment names of the section.  When a gathered alias is an
    environment name, [get_aliases] fails; the failure is the message for
    such aliases, made from the list of exactly those aliases, when no
    alias is repeated (a repeated alias is reported first, by the check
    of uniqueness). *)
Theorem aliases_are_not_env_names (s : State) (sec : SectionData) :
  getitem (source s) (system_name (self s)) = Ok sec ->
  (forall x, In x (env_names (self s)) <-> In x (keys sec)) ->
  (forall al, fst (get_aliases s) = Ok al ->
              forall a, In a al -> ~ In a (keys sec))
  /\ (forall al,
        gathered (source s) (system_name (self s)) (keys sec) [] = Ok al ->
        (exists a, In a al /\ In a (keys sec)) ->
        (exists msg, fst (get_aliases s) = SysExit msg)
        /\ (NoDup al ->
            fst (get_aliases s)
            = SysExit (get_msg_for_list
                         (clashes_header (system_name (self s)))
                         (clashes (env_names (self s)) al))
            /\ forall a, In a (clashes (env_names (self s)) al)
                         <-> In a al /\ In a (keys sec))).
Proof.
  intros Hsec Hnames. rewrite (get_aliases_run s sec Hsec). cbn [fst]. split.
  - intros al Hal a Ha. apply checked_aliases_Ok in Hal as (_ & _ & Hc).
    rewrite <- Hnames. by apply (proj1 (clashes_nil _ _) Hc).
  - intros al Hg (a & Ha & Hk). unfold checked_aliases. rewrite Hg.
    assert (In a (clashes (env_names (self s)) al)) as Hcl.
    { apply clashes_In. split; [done|]. by apply Hnames. }
    split.
    + destruct (duplicates_of al); [|by eexists].
      destruct (clashes (env_names (self s)) al); [destruct Hcl|by eexists].
    + intros Hnd. apply duplicates_of_nil in Hnd. rewrite Hnd. split.
      * by destruct (clashes (env_names (self s)) al); [destruct Hcl|].
      * intros x. rewrite clashes_In. by rewrite Hnames.
Qed.

(** C6. An alias that [get_aliases] returns lives in one value block of
    the section only, that of the key [k] for which it was gathered, and
    [get_env_name_for_alias] returns [k], wherever the entry stands in the
    section. *)
Theorem alias_round_trip (s : State) (sec : SectionData)
    (al : list string) (a : string) :
  getitem (source s) (system_name (self s)) = Ok sec ->
  reads_blocks_alike (source s) (system_name (self s)) sec ->
  fst (get_aliases s) = Ok al ->
  In a al ->
  exists i k v l,
    sec !! i = Some (k, v)
    /\ get_values_for_section_key (source s) (system_name (self s)) k = Ok l
    /\ In a l
    /\ block_has_alias a v = true
    /\ (forall j k' v', sec !! j = Some (k', v') ->
                        block_has_alias a v' = true -> j = i)
    /\ fst (get_env_name_for_alias a s) = Ok k
    /\ fst (get_env_name_for_alias a (snd (get_aliases s))) = Ok k.
Proof.
  intros Hsec Hagree Hal Ha.
  rewrite (get_aliases_run s sec Hsec) in *. cbn [fst snd] in *.
  apply checked_aliases_Ok in Hal as (Hg & Hd & _).
  apply duplicates_of_nil in Hd.
  destruct (gathered_owner _ _ sec al a Hagree Hg Hd Ha)
    as (i & k & v & l & Hi & Hl & Hal & Hb & Ho & Hu).
  exists i, k, v, l. repeat split; try done.
  - rewrite (get_env_name_for_alias_run a s sec Hsec). cbn [fst].
    by apply owner_outcome_Some.
  - rewrite (get_env_name_for_alias_run a (touched 1 s) sec Hsec). cbn [fst].
    by apply owner_outcome_Some.
Qed.

Lemma owned_In (cfg : ConfigData) (sys : string) (sec : SectionData)
    (al al' : list string) (name a : string) :
  reads_blocks_alike cfg sys sec ->
  gathered cfg sys (keys sec) [] = Ok al ->
  NoDup al ->
  (forall x, In x al' <-> In x al) ->
  In name (keys sec) ->
  In a (owned sec name al')
  <-> exists l, get_values_for_section_key cfg sys name = Ok l /\ In a l.
Proof.
  intros Hagree Hg Hnd Hal' Hname. unfold owned. rewrite filter_In, Hal'.
  split.
  - intros [Ha Ho].
    destruct (gathered_owner cfg sys sec al a Hagree Hg Hnd Ha)
      as (i & k & v & l & _ & Hl & Hal & _ & Hk & _).
    rewrite Hk in Ho. apply String.eqb_eq in Ho as ->. by exists l.
  - intros (l & Hl & Hal).
    apply list_elem_of_In, list_elem_of_lookup in Hname as [i Hi].
    destruct (sec !! i) as [[k0 v]|] eqn:Hsi.
    2: { apply lookup_ge_None in Hsi. apply lookup_lt_Some in Hi.
         unfold keys in Hi. rewrite length_map in Hi. lia. }
    assert (k0 = name) as ->.
    { apply keys_values_lookup in Hsi as [Hk0 _]. congruence. }
    assert (In (name, v) sec) as Hin.
    { apply list_elem_of_In, list_elem_of_lookup. by exists i. }
    assert (block_has_alias a v = true) as Hb by (by apply (Hagree name v l)).
    assert (In a al) as Ha.
    { pose proof Hg as Hg'. apply gathered_Ok in Hg' as (ls & Hf & ->).
      cbn. destruct (Forall2_lookup_l _ _ _ _ _ Hf Hi) as (l' & Hl' & Hkl').
      apply In_concat_lookup. exists i, l'. split; [done|]. congruence. }
    split; [done|].
    destruct (gathered_owner cfg sys sec al a Hagree Hg Hnd Ha)
      as (i' & k & v' & l' & Hi' & _ & _ & _ & Hk & Hu).
    rewrite Hk. apply String.eqb_eq.
    specialize (Hu i name v Hsi Hb). subst i'. congruence.
Qed.

(** What the listing of [get_msg_showing_supported_environments] holds
    for a parser that was built without failure. *)
Lemma constructed_extras_list (b sys file : string) (cfg : ConfigData)
    (sec : SectionData) (al : list string) :
  reads_blocks_alike cfg sys sec ->
  gathered cfg sys (keys sec) [] = Ok al ->
  NoDup al ->
  lists_supported_environments cfg sys file sec
    (supported_environments_extras
       (self (constructed b sys file cfg sec al)) sec).
Proof.
  intros Hagree Hg Hnd.
  exists (Py.sorted Py.str_lt (Py.sorted Py.longer (keys sec))),
         (fun name => Py.sorted Py.str_lt
                        (owned sec name (Py.sorted Py.longer al))).
  split.
  { etransitivity; apply PyFacts.sorted_perm. }
  split; [apply PyFacts.sorted_str_lt|].
  split; [|reflexivity].
  intros name Hname. split; [apply PyFacts.sorted_str_lt|].
  intros a. rewrite PyFacts.sorted_In.
  apply (owned_In cfg sys sec al); try done.
  - intros x. apply PyFacts.sorted_In.
  - by apply PyFacts.sorted_In, PyFacts.sorted_In in Hname.
Qed.

Lemma constructed_message (b sys file : string) (cfg : ConfigData)
    (sec : SectionData) (al : list string) (msg kind : string) :
  getitem cfg sys = Ok sec ->
  reads_blocks_alike cfg sys sec ->
  gathered cfg sys (keys sec) [] = Ok al ->
  NoDup al ->
  fst (get_msg_showing_supported_environments msg kind
         (constructed b sys file cfg sec al))
  = Ok (get_formatted_msg msg (Some kind)
          (Some (supported_environments_extras
                   (self (constructed b sys file cfg sec al)) sec))).
Proof.
  intros Hsec Hagree Hg Hnd.
  rewrite (get_msg_showing_supported_environments_run msg kind _ sec);
    [done|done|done|].
  by apply (gathered_resolvable cfg sys).
Qed.

(** C3. When no environment name and no alias of the system is in the
    candidate, resolution fails with the message that nothing was found,
    whose extras list every environment name of the system in increasing
    order, each followed by its aliases in increasing order. *)
Theorem nothing_matched_lists_environments (b sys file : string)
    (cfg : ConfigData) (s : State) (sec : SectionData) (al : list string) :
  new_parser b sys file cfg = (Ok tt, s) ->
  getitem cfg sys = Ok sec ->
  gathered cfg sys (keys sec) [] = Ok al ->
  reads_blocks_alike cfg sys sec ->
  (forall k, In k (keys sec) ->
             Py.contains k (Py.replace "_" "-" b) = false) ->
  (forall a, In a al -> Py.contains a (Py.replace "_" "-" b) = false) ->
  exists extras,
    fst (qualified_env_name s)
    = SysExit (get_formatted_msg (not_found_text (self s)) (Some "ERROR")
                 (Some extras))
    /\ lists_supported_environments cfg sys file sec extras.
Proof.
  intros Hnew Hsec Hg Hagree Hnames Hals.
  apply new_parser_ok in Hnew as (sec' & al' & Hsec' & Hg' & Hd & Hcl & ->).
  assert (sec' = sec) as -> by congruence.
  assert (al' = al) as -> by congruence.
  apply duplicates_of_nil in Hd.
  exists (supported_environments_extras
            (self (constructed b sys file cfg sec al)) sec).
  split; [|by apply constructed_extras_list].
  unfold qualified_env_name. unfold bind at 1. cbn [get_self].
  assert (match_keyword (self (constructed b sys file cfg sec al)) = NotFound)
    as Hm.
  { unfold match_keyword. fields.
    rewrite first_match_None, first_match_None; [done| |].
    - intros x Hx. apply Hals. by apply PyFacts.sorted_In in Hx.
    - intros x Hx. apply Hnames. by apply PyFacts.sorted_In in Hx. }
  rewrite Hm.
  change (_qualified_env_name (self (constructed b sys file cfg sec al)))
    with (@None string). cbv iota.
  unfold bind at 1. unfold bind at 1.
  pose proof (constructed_message b sys file cfg sec al
                (not_found_text (self (constructed b sys file cfg sec al)))
                "ERROR" Hsec Hagree Hg Hd) as Hmsg.
  destruct (get_msg_showing_supported_environments _ _ _) as [o s'].
  cbn [fst] in Hmsg. subst o. reflexivity.
Qed.

(** C8. When the check of the versioned components has found unsupported
    ones, it fails with a text that depends on their number, one, two, or
    more, and with extras that list every environment name of the system
    with its aliases. *)
Theorem unsupported_components_message (b sys file : string)
    (cfg : ConfigData) (s : State) (sec : SectionData) (al : list string)
    (unsupported : list string) :
  new_parser b sys file cfg = (Ok tt, s) ->
  getitem cfg sys = Ok sec ->
  gathered cfg sys (keys sec) [] = Ok al ->
  reads_blocks_alike cfg sys sec ->
  unsupported <> [] ->
  exists text extras,
    fst (reject_unsupported_components unsupported s)
    = SysExit (get_formatted_msg text (Some "ERROR") (Some extras))
    /\ lists_supported_environments cfg sys file sec extras
    /\ (forall x, unsupported = [x] ->
                  text = "'" +:+ x +:+ "' is not supported")
    /\ (forall x y, unsupported = [x; y] ->
                    text = "'" +:+ x +:+ "' and '" +:+ y
                           +:+ "' are not supported together")
    /\ (3 <= length unsupported ->
        text = String.concat ", " (map quoted unsupported)
               +:+ " are not supported together").
Proof.
  intros Hnew Hsec Hg Hagree Hne.
  apply new_parser_ok in Hnew as (sec' & al' & Hsec' & Hg' & Hd & Hcl & ->).
  assert (sec' = sec) as -> by congruence.
  assert (al' = al) as -> by congruence.
  apply duplicates_of_nil in Hd.
  exists (unsupported_components_text unsupported),
         (supported_environments_extras
            (self (constructed b sys file cfg sec al)) sec).
  split; [|split; [by apply constructed_extras_list|]].
  - destruct unsupported as [|x us]; [done|].
    unfold reject_unsupported_components. unfold bind at 1.
    pose proof (constructed_message b sys file cfg sec al
                  (unsupported_components_text (x :: us))
                  "ERROR" Hsec Hagree Hg Hd) as Hmsg.
    destruct (get_msg_showing_supported_environments _ _ _) as [o s'].
    cbn [fst] in Hmsg. subst o. reflexivity.
  - split; [|split].
    + intros x ->. cbn [unsupported_components_text]. unfold quoted.
      by rewrite !PyFacts.app_assoc.
    + intros x y ->. cbn [unsupported_components_text]. unfold quoted.
      by rewrite !PyFacts.app_assoc.
    + intros Hlen. destruct unsupported as [|x [|y [|z us]]]; cbn in Hlen;
        try lia. reflexivity.
Qed.

(** C9, as the code has it.  The configuration file is not loaded once
    for an object: building the object loads it twice, [get_aliases]
    loads it once more, every [get_env_name_for_alias] twice more, so a
    resolution that goes through an alias ends with four loads; only
    reading the qualified name again loads nothing. *)
Theorem configuration_is_loaded_again (b sys file : string)
    (cfg : ConfigData) (s : State) :
  new_parser b sys file cfg = (Ok tt, s) ->
  loads s = 2
  /\ loads (snd (get_aliases s)) = 3
  /\ (forall a, loads (snd (get_env_name_for_alias a s)) = 4)
  /\ (forall q s', qualified_env_name s = (Ok q, s') ->
        (forall n, match_keyword (self s) = MatchedName n -> loads s' = 2)
        /\ (forall a, match_keyword (self s) = MatchedAlias a ->
                      loads s' = 4)
        /\ qualified_env_name s' = (Ok q, s')).
Proof.
  intros Hnew.
  apply new_parser_ok in Hnew as (sec & al & Hsec & Hg & Hd & Hcl & ->).
  split; [reflexivity|].
  split; [by rewrite (get_aliases_run _ sec)|].
  split; [intros a; by rewrite (get_env_name_for_alias_run a _ sec)|].
  intros q s'.
  rewrite (qualified_env_name_fresh (constructed b sys file cfg sec al) eq_refl).
  unfold bind at 1.
  destruct (match_keyword (self (constructed b sys file cfg sec al)))
    as [n|a|] eqn:Hm.
  - cbn [ret]. intros (_ & _ & ->)%validate_and_store_Ok.
    split; [|split]; [by intros|discriminate|apply qualified_env_name_cached].
  - rewrite (get_env_name_for_alias_run a (constructed b sys file cfg sec al)
               sec Hsec).
    destruct (owner_outcome _ sec a); [|discriminate..].
    intros (_ & _ & ->)%validate_and_store_Ok.
    split; [|split]; [discriminate|by intros|apply qualified_env_name_cached].
  - unfold bind at 1.
    destruct (get_msg_showing_supported_environments _ _ _) as [[m| |] s1];
      discriminate.
Qed.

End Properties.

(** ** The model on small inputs *)

Module Checks.

Example findall_value_block :
  Re.findall (Sample.lines [""; "gnu  # GNU"; "default-env # The default"])
  = [""; "gnu  "; "default-env "; ""; ""].
Proof. vm_compute. reflexivity. Qed.

Example aliases_of_value_block :
  aliases_for_env
    (Sample.lines [""; "gnu  # GNU"; "default_env # The default"])
  = ["gnu"; "default-env"].
Proof. vm_compute. reflexivity. Qed.

Example caret_ends_a_capture :
  aliases_for_env "gnu^7" = ["gnu"; "7"].
Proof. vm_compute. reflexivity. Qed.

Example longest_first_keeps_order :
  Py.sorted Py.longer ["intel"; "gnu-7"; "intel-19"; "x"; "cuda9"]
  = ["intel-19"; "intel"; "gnu-7"; "cuda9"; "x"].
Proof. reflexivity. Qed.

Example sorted_is_by_code_point :
  Py.sorted Py.str_lt ["intel"; "default-env"; "Intel"; "intel-18"]
  = ["Intel"; "default-env"; "intel"; "intel-18"].
Proof. reflexivity. Qed.

Example contains_inside_a_word : Py.contains "intel" "myintelx" = true.
Proof. reflexivity. Qed.

Example contains_needs_every_character :
  Py.contains "intel-19" "intel-18-foo" = false.
Proof. reflexivity. Qed.

Example strip_keeps_inner_space : Py.strip "  intel 18  " = "intel 18".
Proof. reflexivity. Qed.

Example alias_resolves_to_its_environment :
  fst (@resolve Plain.parser "intel_18" "machine-type-5" "supported-envs.ini"
         Sample.machine_type_5)
  = Ok "machine-type-5-intel-18.0.5-mpich-7.7.6".
Proof. vm_compute. reflexivity. Qed.

Example general_alias_in_last_entry :
  fst (@get_env_name_for_alias Plain.parser "intel"
         (Sample.before_aliases "machine-type-5"
            [("machine-type-5", rev Sample.machine_type_5_envs)]
            (rev Sample.machine_type_5_envs)))
  = Ok "intel-18.0.5-mpich-7.7.6".
Proof. vm_compute. reflexivity. Qed.

Example unknown_system_raises :
  fst (@resolve Plain.parser "intel" "machine-type-6" "supported-envs.ini"
         Sample.machine_type_5)
  = Raise "KeyError".
Proof. vm_compute. reflexivity. Qed.

Example diagnostic_loads_the_file_for_every_pair :
  loads (snd (@resolve Plain.parser "bad_kw" "machine-type-5"
                "supported-envs.ini" Sample.machine_type_5))
  = 2 + 2 * (2 * 4).
Proof. vm_compute. reflexivity. Qed.

End Checks.

(** ** The properties on the sample configurations *)

Module OnSamples.

Lemma section_value_In (sec : SectionData) (k : string) (v : option string) :
  NoDup (keys sec) -> In (k, v) sec -> Plain.section_value sec k = Some v.
Proof.
  induction sec as [|[k0 v0] sec IH]; cbn; [by intros _ []|].
  intros [Hk0 Hnd]%NoDup_cons [[= -> ->]|Hin].
  - by rewrite String.eqb_refl.
  - destruct (String.eqb_spec k0 k) as [->|Hne]; [|by apply IH].
    exfalso. apply Hk0. apply list_elem_of_In. unfold keys.
    apply in_map_iff. by exists (k, v).
Qed.

(** The plain implementation reads the value blocks as
    [get_env_name_for_alias] does, in every section whose keys are
    distinct. *)
Lemma plain_reads_blocks_alike (cfg : ConfigData) (sys : string)
    (sec : SectionData) :
  getitem cfg sys = Ok sec ->
  NoDup (keys sec) ->
  reads_blocks_alike (KP := Plain.parser) cfg sys sec.
Proof.
  intros Hsec Hnd k v l Hin Hl a. cbn in Hl. unfold Plain.get_values in Hl.
  rewrite Hsec, (section_value_In sec k v Hnd Hin) in Hl.
  destruct v as [blk|]; cbn [block_has_alias].
  2: { injection Hl as <-. split; [intros []|discriminate]. }
  destruct (List.filter Plain.has_space _); [|discriminate].
  injection Hl as <-. rewrite map_map. fold (aliases_for_env blk).
  destruct (String.eqb_spec blk "") as [->|Hne].
  - split; [intros []|discriminate].
  - symmetry. apply list_in_In.
Qed.

Ltac sample := vm_compute; reflexivity.
Ltac distinct := apply NoDup_ListNoDup; repeat constructor; cbn; intuition discriminate.

(** An environment name and an alias of the other environment are both in
    the candidate. *)
Lemma name_match_needs_no_alias_witness :
  exists e,
    In e ["intel-18.0.5-mpich-7.7.6"; "intel-19.0.4-mpich-7.7.6"]
    /\ Py.contains e "intel-19.0.4-mpich-7.7.6-intel-18" = true
    /\ @resolve Plain.parser "intel_19.0.4_mpich_7.7.6_intel_18"
         "machine-type-5" "supported-envs.ini" Sample.machine_type_5
       = (Ok ("machine-type-5" +:+ "-" +:+ e),
          cached ("machine-type-5" +:+ "-" +:+ e)
            (snd (@new_parser Plain.parser "intel_19.0.4_mpich_7.7.6_intel_18"
                    "machine-type-5" "supported-envs.ini"
                    Sample.machine_type_5))).
Proof.
  destruct (@name_match_needs_no_alias Plain.parser
              "intel_19.0.4_mpich_7.7.6_intel_18" "machine-type-5"
              "supported-envs.ini" Sample.machine_type_5
              (snd (@new_parser Plain.parser "intel_19.0.4_mpich_7.7.6_intel_18"
                      "machine-type-5" "supported-envs.ini"
                      Sample.machine_type_5))
              Sample.machine_type_5_envs "intel-19.0.4-mpich-7.7.6")
    as (e & Hin & Hc & _ & Hm & Hq & _).
  - vm_compute. reflexivity.
  - vm_compute. reflexivity.
  - right. left. reflexivity.
  - vm_compute. reflexivity.
  - exists e. split; [exact Hin|]. split; [exact Hc|].
    unfold resolve. unfold bind at 1.
    change (mkState _ Sample.machine_type_5 0)
      with (mkState (mkParser None "" "" "" [] [] None) Sample.machine_type_5 0).
    fold (@new_parser Plain.parser "intel_19.0.4_mpich_7.7.6_intel_18"
            "machine-type-5" "supported-envs.ini" Sample.machine_type_5).
    destruct (@new_parser Plain.parser "intel_19.0.4_mpich_7.7.6_intel_18"
                "machine-type-5" "supported-envs.ini" Sample.machine_type_5)
      as [o s0] eqn:Hnp.
    assert (o = Ok tt) as -> by (by vm_compute in Hnp; injection Hnp as <- _).
    cbn [snd] in Hq. apply Hq. split; reflexivity.
Defined.

Lemma longest_key_is_matched_first_witness :
  match_keyword
    (self (snd (@new_parser Plain.parser "intel_19_foo" "sys" "f.ini"
                  Sample.two_intels)))
  = MatchedName "intel-19".
Proof.
  destruct (@longest_key_is_matched_first Plain.parser
              "intel_19_foo" "sys" "f.ini" Sample.two_intels
              (snd (@new_parser Plain.parser "intel_19_foo" "sys" "f.ini"
                      Sample.two_intels))
              Sample.two_intels_envs)
    as (al & _ & _ & _ & _ & _ & _ & _ & _ & Hex).
  - vm_compute. reflexivity.
  - vm_compute. reflexivity.
  - destruct Hex as (k & Hm & _ & Hk).
    + left. reflexivity.
    + right. left. reflexivity.
    + vm_compute. reflexivity.
    + rewrite Hm. f_equal. apply Hk. reflexivity.
Defined.

Lemma substring_anywhere_matches_witness :
  match_keyword (mkParser None "f.ini" "myintelx" "sys" ["gnu-7"] ["intel"] None)
  = MatchedAlias "intel".
Proof.
  destruct (substring_anywhere_matches
              (mkParser None "f.ini" "myintelx" "sys" ["gnu-7"] ["intel"] None)
              "intel" "my" "x") as (_ & _ & Hk & _).
  - reflexivity.
  - right. left. reflexivity.
  - destruct (Hk ["gnu-7"] []) as [Hn|Ha].
    + reflexivity.
    + intros x [<-|[]]. reflexivity.
    + discriminate Hn.
    + exact Ha.
Defined.

Lemma nothing_matched_lists_environments_witness :
  exists extras,
    fst (@qualified_env_name Plain.parser
           (snd (@new_parser Plain.parser "bad_kw" "machine-type-5"
                   "supported-envs.ini" Sample.machine_type_5)))
    = SysExit
        (Plain.formatted_msg
           (not_found_text
              (self (snd (@new_parser Plain.parser "bad_kw" "machine-type-5"
                            "supported-envs.ini" Sample.machine_type_5))))
           (Some "ERROR") (Some extras))
    /\ @lists_supported_environments Plain.parser Sample.machine_type_5
         "machine-type-5" "supported-envs.ini" Sample.machine_type_5_envs
         extras.
Proof.
  apply (@nothing_matched_lists_environments Plain.parser "bad_kw"
           "machine-type-5" "supported-envs.ini" Sample.machine_type_5 _
           Sample.machine_type_5_envs
           ["intel-18"; "intel"; "default-env"; "intel-19"]).
  - sample.
  - sample.
  - sample.
  - apply plain_reads_blocks_alike; [sample|distinct].
  - intros k [<-|[<-|[]]]; sample.
  - intros a [<-|[<-|[<-|[<-|[]]]]]; sample.
Defined.

Lemma duplicated_aliases_are_fatal_witness :
  exists d,
    fst (@get_aliases Plain.parser
           (Sample.before_aliases "sys" Sample.two_twice
              Sample.two_twice_envs))
    = SysExit (Plain.msg_for_list (duplicates_header "sys") d)
    /\ NoDup d
    /\ forall a, In a d <-> 1 < Py.count a ["gnu"; "gnu"; "cuda"; "cuda"].
Proof.
  refine (proj1 (@duplicated_aliases_are_fatal Plain.parser
                   (Sample.before_aliases "sys" Sample.two_twice
                      Sample.two_twice_envs)
                   Sample.two_twice_envs ["gnu"; "gnu"; "cuda"; "cuda"]
                   _ _) _).
  - sample.
  - sample.
  - exists "gnu". vm_compute. lia.
Defined.

(** C5 as it is stated fails here: the alias [cuda-9] is an environment
    name, and [get_aliases], and with it the construction of the parser,
    fails with the message for the duplicate [gnu], in which [cuda-9]
    does not occur. *)
Lemma clash_hidden_by_duplicate :
  @gathered Plain.parser Sample.twice_and_clash "sys"
     (keys Sample.twice_and_clash_envs) []
  = Ok ["gnu"; "gnu"; "cuda-9"; "cuda"]
  /\ In "cuda-9" ["gnu"; "gnu"; "cuda-9"; "cuda"]
  /\ In "cuda-9" (keys Sample.twice_and_clash_envs)
  /\ fst (@get_aliases Plain.parser
            (Sample.before_aliases "sys" Sample.twice_and_clash
               Sample.twice_and_clash_envs))
     = SysExit (Plain.msg_for_list (duplicates_header "sys") ["gnu"])
  /\ fst (@new_parser Plain.parser "" "sys" "supported-envs.ini"
            Sample.twice_and_clash)
     = SysExit (Plain.msg_for_list (duplicates_header "sys") ["gnu"])
  /\ Py.contains "cuda-9"
       (Plain.msg_for_list (duplicates_header "sys") ["gnu"]) = false
  /\ fst (@get_aliases Plain.parser
            (Sample.before_aliases "sys" Sample.twice_and_clash
               Sample.twice_and_clash_envs))
     <> SysExit (Plain.msg_for_list (clashes_header "sys") ["cuda-9"]).
Proof.
  split; [sample|]. split; [cbn; tauto|]. split; [cbn; tauto|].
  split; [sample|]. split; [sample|]. split; [sample|].
  vm_compute. discriminate.
Defined.

Lemma aliases_are_not_env_names_witness :
  fst (@get_aliases Plain.parser
         (Sample.before_aliases "sys" Sample.clash_only
            Sample.clash_only_envs))
  = SysExit (Plain.msg_for_list (clashes_header "sys") ["cuda-9"]).
Proof.
  destruct (@aliases_are_not_env_names Plain.parser
              (Sample.before_aliases "sys" Sample.clash_only
                 Sample.clash_only_envs)
              Sample.clash_only_envs) as [_ H].
  - sample.
  - intros x. apply (PyFacts.sorted_In Py.longer).
  - destruct (H ["gnu"; "cuda-9"; "cuda"]) as [_ Hlist].
    + sample.
    + exists "cuda-9". cbn. tauto.
    + destruct Hlist as [Hmsg _]; [distinct|]. exact Hmsg.
Defined.

Lemma alias_round_trip_witness :
  fst (@get_env_name_for_alias Plain.parser "intel-19"
         (Sample.before_aliases "machine-type-5" Sample.machine_type_5
            Sample.machine_type_5_envs))
  = Ok "intel-19.0.4-mpich-7.7.6".
Proof.
  destruct (@alias_round_trip Plain.parser
              (Sample.before_aliases "machine-type-5" Sample.machine_type_5
                 Sample.machine_type_5_envs)
              Sample.machine_type_5_envs
              ["intel-18"; "intel"; "default-env"; "intel-19"] "intel-19")
    as (i & k & v & l & Hi & _ & _ & _ & _ & Hk & _).
  - sample.
  - apply plain_reads_blocks_alike; [sample|distinct].
  - sample.
  - cbn. tauto.
  - rewrite Hk. f_equal.
    destruct i as [|[|i]]; cbn in Hi; [| |destruct i; discriminate Hi].
    + injection Hi as <- <-. vm_compute in Hk. discriminate Hk.
    + by injection Hi as <- <-.
Defined.

Lemma unsupported_components_message_witness :
  exists text extras,
    fst (@reject_unsupported_components Plain.parser ["intel-20"]
           (snd (@new_parser Plain.parser "intel-20" "machine-type-5"
                   "supported-envs.ini" Sample.machine_type_5)))
    = SysExit (Plain.formatted_msg text (Some "ERROR") (Some extras))
    /\ @lists_supported_environments Plain.parser Sample.machine_type_5
         "machine-type-5" "supported-envs.ini" Sample.machine_type_5_envs
         extras
    /\ text = "'intel-20' is not supported".
Proof.
  destruct (@unsupported_components_message Plain.parser "intel-20"
              "machine-type-5" "supported-envs.ini" Sample.machine_type_5
              (snd (@new_parser Plain.parser "intel-20" "machine-type-5"
                      "supported-envs.ini" Sample.machine_type_5))
              Sample.machine_type_5_envs
              ["intel-18"; "intel"; "default-env"; "intel-19"]
              ["intel-20"])
    as (text & extras & Hmsg & Hlist & Hone & _).
  - sample.
  - sample.
  - sample.
  - apply plain_reads_blocks_alike; [sample|distinct].
  - discriminate.
  - exists text, extras. split; [exact Hmsg|]. split; [exact Hlist|].
    exact (Hone "intel-20" eq_refl).
Defined.

Lemma configuration_is_loaded_again_witness :
  loads (snd (@new_parser Plain.parser "intel_18" "machine-type-5"
                "supported-envs.ini" Sample.machine_type_5)) = 2
  /\ loads (snd (@qualified_env_name Plain.parser
                   (snd (@new_parser Plain.parser "intel_18" "machine-type-5"
                           "supported-envs.ini" Sample.machine_type_5)))) = 4.
Proof.
  destruct (@configuration_is_loaded_again Plain.parser "intel_18"
              "machine-type-5" "supported-envs.ini" Sample.machine_type_5
              (snd (@new_parser Plain.parser "intel_18" "machine-type-5"
                      "supported-envs.ini" Sample.machine_type_5)))
    as (Hnew & _ & _ & Hq).
  - sample.
  - split; [exact Hnew|].
    destruct (Hq "machine-type-5-intel-18.0.5-mpich-7.7.6"
                (snd (@qualified_env_name Plain.parser
                        (snd (@new_parser Plain.parser "intel_18"
                                "machine-type-5" "supported-envs.ini"
                                Sample.machine_type_5)))))
      as (_ & Ha & _).
    + sample.
    + apply (Ha "intel-18"). sample.
Defined.

End OnSamples.

(** * More properties of [ConfigKeywordParser] *)

Module CharFacts.

Lemma chars_app (a b : string) : chars (a +:+ b) = chars a ++ chars b.
Proof.
  unfold chars. induction a as [|c a IH]; [reflexivity|].
  rewrite PyFacts.app_cons. cbn. by rewrite IH.
Qed.

Lemma contains_chars (k c : string) (x : ascii) :
  Py.contains k c = true -> In x (chars k) -> In x (chars c).
Proof.
  intros (pre & post & ->)%PyFacts.contains_iff Hx.
  rewrite !chars_app. apply in_or_app. right. apply in_or_app. by left.
Qed.

Lemma replace_chars (old new : ascii) (s : string) :
  old <> new -> ~ In old (chars (Py.replace old new s)).
Proof.
  intros Hne. induction s as [|c s IH]; cbn; [tauto|].
  intros [Hc|Hin]; [|by apply IH].
  destruct (Ascii.eqb_spec c old); congruence.
Qed.

Lemma replace_chars_In (old new x : ascii) (s : string) :
  In x (chars (Py.replace old new s)) -> x = new \/ In x (chars s).
Proof.
  induction s as [|c s IH]; cbn; [tauto|].
  intros [Hc|Hin].
  - destruct (Ascii.eqb c old); [by left|right; by left].
  - destruct (IH Hin); [by left|right; by right].
Qed.

Lemma lstrip_chars (x : ascii) (s : string) :
  In x (chars (Py.lstrip s)) -> In x (chars s).
Proof.
  induction s as [|c s IH]; cbn; [tauto|].
  destruct (Py.isspace c); cbn; [intros; right; by apply IH|tauto].
Qed.

Lemma rstrip_chars (x : ascii) (s : string) :
  In x (chars (Py.rstrip s)) -> In x (chars s).
Proof.
  induction s as [|c s IH]; cbn; [tauto|].
  destruct (Py.rstrip s) as [|d r] eqn:Hr.
  - destruct (Py.isspace c); cbn; tauto.
  - cbn. intros [?|?]; [by left|right; by apply IH].
Qed.

Lemma strip_chars (x : ascii) (s : string) :
  In x (chars (Py.strip s)) -> In x (chars s).
Proof. intros H. by apply lstrip_chars, rstrip_chars. Qed.

Lemma rstrip_cons (c : ascii) (s : string) :
  Py.rstrip (String c s)
  = match Py.rstrip s with
    | EmptyString => if Py.isspace c then EmptyString else String c EmptyString
    | r => String c r
    end.
Proof. reflexivity. Qed.

Lemma rstrip_idem (s : string) : Py.rstrip (Py.rstrip s) = Py.rstrip s.
Proof.
  induction s as [|c s IH]; [reflexivity|]. rewrite rstrip_cons.
  destruct (Py.rstrip s) as [|d r] eqn:Hr.
  - destruct (Py.isspace c) eqn:Hc; [done|].
    rewrite rstrip_cons. cbn. by rewrite Hc.
  - rewrite rstrip_cons, IH. reflexivity.
Qed.

Lemma lstrip_rstrip_lstrip (s : string) :
  Py.lstrip (Py.rstrip (Py.lstrip s)) = Py.rstrip (Py.lstrip s).
Proof.
  induction s as [|c s IH]; [reflexivity|]. cbn [Py.lstrip].
  destruct (Py.isspace c) eqn:Hc; [done|]. cbn [Py.rstrip].
  destruct (Py.rstrip s); rewrite ?Hc; cbn; rewrite ?Hc; reflexivity.
Qed.

(** [strip] leaves nothing to strip. *)
Lemma strip_idem (s : string) : Py.strip (Py.strip s) = Py.strip s.
Proof.
  unfold Py.strip. by rewrite lstrip_rstrip_lstrip, rstrip_idem.
Qed.

Lemma isspace_replace (c : ascii) :
  Py.isspace (if Ascii.eqb c "_" then "-"%char else c) = Py.isspace c.
Proof. by destruct (Ascii.eqb_spec c "_") as [->|]. Qed.

Lemma lstrip_replace (s : string) :
  Py.lstrip (Py.replace "_" "-" s) = Py.replace "_" "-" (Py.lstrip s).
Proof.
  induction s as [|c s IH]; [reflexivity|]. cbn. rewrite isspace_replace.
  by destruct (Py.isspace c).
Qed.

Lemma rstrip_replace (s : string) :
  Py.rstrip (Py.replace "_" "-" s) = Py.replace "_" "-" (Py.rstrip s).
Proof.
  induction s as [|c s IH]; [reflexivity|]. cbn. rewrite IH, isspace_replace.
  destruct (Py.rstrip s); cbn; [by destruct (Py.isspace c)|done].
Qed.

Lemma strip_replace (s : string) :
  Py.strip (Py.replace "_" "-" s) = Py.replace "_" "-" (Py.strip s).
Proof. unfold Py.strip. by rewrite lstrip_replace, rstrip_replace. Qed.

Lemma capture_chars (s : string) (x : ascii) :
  In x (chars (fst (Re.capture s))) -> Re.captured x = true.
Proof.
  induction s as [|c s IH]; cbn; [tauto|].
  destruct (Re.captured c) eqn:Hc; [|cbn; tauto].
  destruct (Re.capture s) as [cap r]. cbn in *.
  intros [<-|Hx]; [done|by apply IH].
Qed.

Lemma findall_from_chars (n : nat) (s cap : string) (x : ascii) :
  In cap (Re.findall_from n s) -> In x (chars cap) -> Re.captured x = true.
Proof.
  revert s. induction n as [|n IH]; intros s; cbn [Re.findall_from]; [intros []|].
  pose proof (capture_chars (Re.comments (String.length s) s) x) as Hcap.
  destruct (Re.capture (Re.comments (String.length s) s)) as [cap0 rest].
  cbn [fst] in Hcap.
  destruct (String.length rest =? String.length s)%nat.
  - destruct s as [|c s'].
    + intros [<-|[]]. exact Hcap.
    + intros [<-|Hin]; [exact Hcap|by apply (IH s')].
  - intros [<-|Hin]; [exact Hcap|by apply (IH rest)].
Qed.

End CharFacts.

Section MoreProperties.
Context `{KP : KeywordParser}.

(** X6. An alias read from a value block has no [#], no [^], no newline
    and no underscore in it, and no white space at either end. *)
Theorem aliases_for_env_are_clean (a x : string) :
  In x (aliases_for_env a) ->
  (forall c, In c (chars x) ->
             c <> "#"%char /\ c <> "^"%char /\ c <> Py.nl_char
             /\ c <> "_"%char)
  /\ Py.strip x = x.
Proof.
  unfold aliases_for_env. intros (y & <- & Hy)%in_map_iff.
  apply filter_In in Hy as [Hy _]. split.
  - intros c Hc.
    assert (c <> "_"%char) as Hu.
    { intros ->. by apply (CharFacts.replace_chars "_" "-" (Py.strip y)). }
    apply CharFacts.replace_chars_In in Hc as [->|Hc].
    { repeat split; discriminate. }
    apply CharFacts.strip_chars in Hc.
    pose proof (CharFacts.findall_from_chars _ _ _ _ Hy Hc) as Hcap.
    unfold Re.captured in Hcap. apply negb_true_iff in Hcap.
    apply orb_false_iff in Hcap as [Hcap Hnl].
    apply orb_false_iff in Hcap as [Hh Hca].
    repeat split; try done; intros ->; by rewrite Ascii.eqb_refl in *.
  - by rewrite CharFacts.strip_replace, CharFacts.strip_idem.
Qed.

Ltac proj_fields :=
  cbn [constructed with_aliases cached touched self source loads
       set_aliases set_env_names set_supported_envs set_qualified_env_name
       _supported_envs supported_envs_filename build_name system_name
       env_names aliases _qualified_env_name] in *.

Lemma first_index_none_iff {A} (p : A -> bool) (l : list A) :
  first_index p l = None <-> forall x, In x l -> p x = false.
Proof.
  induction l as [|x l IH]; cbn.
  - split; [intros _ ? []|done].
  - destruct (p x) eqn:Hp.
    + split; [discriminate|]. intros H. rewrite H in Hp; [done|by left].
    + destruct (first_index p l); cbn.
      * split; [discriminate|]. intros H.
        assert (Some n = None) as Hn; [|done].
        apply IH. intros y Hy. apply H. by right.
      * split; [|done]. intros _ y [<-|Hy]; [done|].
        by apply IH.
Qed.

Lemma owner_outcome_Ok (sys : string) (sec : SectionData) (a k : string) :
  owner_outcome sys sec a = Ok k <-> owner_of sec a = Some k.
Proof.
  unfold owner_outcome, owner_of.
  destruct (first_index _ _); [|split; discriminate].
  destruct (keys sec !! n); split; congruence.
Qed.

Lemma owner_outcome_no_raise (sys : string) (sec : SectionData)
    (a e : string) :
  owner_outcome sys sec a <> Raise e.
Proof.
  unfold owner_outcome.
  destruct (first_index _ _) as [i|] eqn:Hi; [|discriminate].
  apply first_index_Some in Hi as (v & Hv & _).
  apply lookup_lt_Some in Hv. unfold values in Hv. rewrite length_map in Hv.
  destruct (keys sec !! i) eqn:Hk; [discriminate|].
  apply lookup_ge_None in Hk. unfold keys in Hk. rewrite length_map in Hk.
  lia.
Qed.

(** X1. In a section that exists, [get_env_name_for_alias] returns the
    key of the first value block that has the alias, fails with the
    message that the alias was not found exactly when no value block has
    it, and raises nothing; it loads the configuration twice. *)
Theorem alias_lookup_outcomes (s : State) (sec : SectionData) (a : string) :
  getitem (source s) (system_name (self s)) = Ok sec ->
  (forall k,
     fst (get_env_name_for_alias a s) = Ok k
     <-> exists i v,
           sec !! i = Some (k, v) /\ block_has_alias a v = true
           /\ forall j k' v', j < i -> sec !! j = Some (k', v') ->
                              block_has_alias a v' = false)
  /\ (fst (get_env_name_for_alias a s)
      = SysExit (alias_not_found (system_name (self s)) a)
      <-> forall k v, In (k, v) sec -> block_has_alias a v = false)
  /\ (forall e, fst (get_env_name_for_alias a s) <> Raise e)
  /\ loads (snd (get_env_name_for_alias a s)) = 2 + loads s.
Proof.
  intros Hsec. rewrite (get_env_name_for_alias_run a s sec Hsec).
  cbn [fst snd]. split; [|split; [|split]].
  - intros k. by rewrite owner_outcome_Ok, owner_of_Some.
  - unfold owner_outcome.
    destruct (first_index _ _) as [i|] eqn:Hi.
    + split.
      * destruct (keys sec !! i); discriminate.
      * intros Hno. apply first_index_Some in Hi as (v & Hv & Hp & _).
        destruct (keys sec !! i) as [k|] eqn:Hk.
        -- rewrite (Hno k v) in Hp; [discriminate|].
           apply list_elem_of_In, list_elem_of_lookup. exists i.
           by apply keys_values_lookup.
        -- apply lookup_ge_None in Hk. apply lookup_lt_Some in Hv.
           unfold keys, values in *. rewrite length_map in *. lia.
    + split; [|done]. intros _ k v Hin.
      apply (proj1 (first_index_none_iff _ _) Hi).
      unfold values. apply in_map_iff. by exists (k, v).
  - intros e. apply owner_outcome_no_raise.
  - reflexivity.
Qed.

Lemma getitem_missing (data : ConfigData) (n : string) :
  (forall sec, ~ In (n, sec) data) <-> getitem data n = Raise "KeyError".
Proof.
  induction data as [|[n0 sec0] data IH]; cbn.
  - split; [done|]. intros _ ? [].
  - destruct (String.eqb_spec n0 n) as [->|Hne].
    + split; [|discriminate]. intros H. destruct (H sec0). by left.
    + rewrite <- IH. split.
      * intros H sec Hin. apply (H sec). by right.
      * intros H sec [[= ? ?]|Hin]; [done|by apply (H sec)].
Qed.

(** X2. Building a parser for a system that has no section in the
    configuration raises [KeyError], after one load of the file and
    before any environment name or alias is stored. *)
Theorem unknown_system_is_a_key_error (b sys file : string)
    (cfg : ConfigData) :
  (forall sec, ~ In (sys, sec) cfg) ->
  fst (new_parser b sys file cfg) = Raise "KeyError"
  /\ loads (snd (new_parser b sys file cfg)) = 1
  /\ env_names (self (snd (new_parser b sys file cfg))) = []
  /\ aliases (self (snd (new_parser b sys file cfg))) = []
  /\ fst (resolve b sys file cfg) = Raise "KeyError".
Proof.
  intros Hno%getitem_missing.
  assert (new_parser b sys file cfg
          = (Raise "KeyError",
             mkState (mkParser (Some cfg) file (Py.replace "_" "-" b) sys
                               [] [] None) cfg 1)) as Hnew.
  { unfold new_parser, __init__. unfold bind at 1.
    cbn [put_self source loads].
    unfold bind at 1. rewrite supported_envs_of_system_run.
    cbn [source self system_name touched set_supported_envs
         supported_envs_filename build_name env_names aliases
         _qualified_env_name loads].
    by rewrite Hno. }
  rewrite Hnew. cbn [fst snd loads self env_names aliases].
  repeat split; try done.
  unfold resolve. unfold bind at 1.
  change (__init__ b sys file (mkState (mkParser None "" "" "" [] [] None) cfg 0))
    with (new_parser b sys file cfg).
  by rewrite Hnew.
Qed.

Lemma match_keyword_name (o : ConfigKeywordParser) (e : string) :
  match_keyword o = MatchedName e ->
  first_match (env_names o) (build_name o) = Some e.
Proof.
  unfold match_keyword. destruct (first_match (env_names o) _).
  - by intros [= ->].
  - destruct (first_match (aliases o) _); discriminate.
Qed.

Lemma match_keyword_alias (o : ConfigKeywordParser) (a : string) :
  match_keyword o = MatchedAlias a ->
  first_match (env_names o) (build_name o) = None
  /\ first_match (aliases o) (build_name o) = Some a.
Proof.
  unfold match_keyword. destruct (first_match (env_names o) _).
  - discriminate.
  - destruct (first_match (aliases o) _); [|discriminate].
    by intros [= ->].
Qed.

(** X3. Whatever a parser just built resolves to is [system-e] for a key
    [e] of the section of the system: [e] was matched by name, or an
    alias was matched and [e] is the key of the first value block that
    has it.  The result is stored in the object. *)
Theorem resolved_name_is_an_environment (b sys file : string)
    (cfg : ConfigData) (s s' : State) (sec : SectionData) (q : string) :
  new_parser b sys file cfg = (Ok tt, s) ->
  getitem cfg sys = Ok sec ->
  qualified_env_name s = (Ok q, s') ->
  exists e,
    In e (keys sec)
    /\ q = sys +:+ "-" +:+ e
    /\ _qualified_env_name (self s') = Some q
    /\ (match_keyword (self s) = MatchedName e
        \/ exists a, match_keyword (self s) = MatchedAlias a
                     /\ owner_of sec a = Some e).
Proof.
  intros (sec' & al & Hsec' & _ & _ & _ & ->)%new_parser_ok Hsec Hq.
  assert (sec' = sec) as -> by congruence.
  rewrite qualified_env_name_fresh in Hq by reflexivity.
  unfold bind in Hq.
  destruct (match_keyword _) as [e|a|] eqn:Hm.
  - cbn [ret] in Hq. apply validate_and_store_Ok in Hq as (_ & -> & ->).
    exists e. repeat split; [|by left].
    apply match_keyword_name, first_match_Some_In in Hm as [Hin _].
    proj_fields. by apply PyFacts.sorted_In in Hin.
  - rewrite (get_env_name_for_alias_run
               a (constructed b sys file cfg sec al) sec Hsec) in Hq.
    proj_fields.
    destruct (owner_outcome sys sec a) as [e| |] eqn:Ho; try discriminate.
    apply validate_and_store_Ok in Hq as (_ & -> & ->).
    apply owner_outcome_Ok in Ho. exists e. repeat split.
    + apply owner_of_Some in Ho as (i & v & Hi & _).
      apply keys_values_lookup in Hi as [Hk _].
      apply list_elem_of_In, list_elem_of_lookup. by exists i.
    + right. by exists a.
  - destruct (get_msg_showing_supported_environments _ _ _) as [[]];
      discriminate.
Qed.

(** X5. The keyword a parser matches, environment name or alias, is part
    of the build name with its underscores turned into hyphens, so it has
    no underscore: an environment name or an alias with an underscore in
    it is never matched, whatever the build name. *)
Theorem matched_keyword_has_no_underscore (b sys file : string)
    (cfg : ConfigData) (s : State) (k : string) :
  new_parser b sys file cfg = (Ok tt, s) ->
  match_keyword (self s) = MatchedName k
  \/ match_keyword (self s) = MatchedAlias k ->
  Py.contains k (Py.replace "_" "-" b) = true
  /\ ~ In "_"%char (chars k).
Proof.
  intros (sec & al & _ & _ & _ & _ & ->)%new_parser_ok Hm.
  assert (Py.contains k (Py.replace "_" "-" b) = true) as Hc.
  { destruct Hm as [Hm|Hm].
    - by apply match_keyword_name, first_match_Some_In in Hm as [_ ?].
    - apply match_keyword_alias in Hm as [_ Hm].
      by apply first_match_Some_In in Hm as [_ ?]. }
  split; [done|]. intros Hin.
  apply (CharFacts.replace_chars "_" "-" b); [discriminate|].
  by apply (CharFacts.contains_chars k).
Qed.

Lemma after_loads_refl (s : State) : after_loads s s.
Proof. by left. Qed.

Lemma after_loads_touched (n : nat) (s : State) : after_loads s (touched n s).
Proof. right. by exists n. Qed.

Lemma after_loads_trans (s1 s2 s3 : State) :
  after_loads s1 s2 -> after_loads s2 s3 -> after_loads s1 s3.
Proof.
  intros [->|[n ->]] [->|[m ->]].
  - by left.
  - right. by exists m.
  - right. by exists n.
  - right. exists (m + n). apply touched_touched.
Qed.

Lemma frames_ret {A} (a : A) : frames (ret a).
Proof. intros s. apply after_loads_refl. Qed.

Lemma frames_lift {A} (o : Outcome A) : frames (lift o).
Proof. intros s. apply after_loads_refl. Qed.

Lemma frames_get_self : frames get_self.
Proof. intros s. apply after_loads_refl. Qed.

Lemma frames_bind {A B} (m : M A) (k : A -> M B) :
  frames m -> (forall a, frames (k a)) -> frames (bind m k).
Proof.
  intros Hm Hk s. unfold bind. specialize (Hm s).
  destruct (m s) as [[a| |] s1]; cbn [snd] in *; [|done..].
  by apply (after_loads_trans s s1), Hk.
Qed.

Lemma frames_supported_envs_of_system : frames supported_envs_of_system.
Proof.
  intros s. rewrite supported_envs_of_system_run. apply after_loads_touched.
Qed.

Lemma frames_get_env_name_for_alias (a : string) :
  frames (get_env_name_for_alias a).
Proof.
  unfold get_env_name_for_alias.
  apply frames_bind; [apply frames_supported_envs_of_system|]. intros sec1.
  apply frames_bind; [apply frames_supported_envs_of_system|]. intros sec2.
  destruct (first_index _ _) as [i|].
  - destruct (_ !! i); [apply frames_ret|apply frames_lift].
  - apply frames_bind; [apply frames_get_self|]. intros o.
    apply frames_lift.
Qed.

Lemma frames_filterM {A} (p : A -> M bool) (l : list A) :
  (forall x, frames (p x)) -> frames (filterM p l).
Proof.
  intros Hp. induction l as [|x l IH]; cbn [filterM]; [apply frames_ret|].
  apply frames_bind; [apply Hp|]. intros b0.
  apply frames_bind; [apply IH|]. intros r. apply frames_ret.
Qed.

Lemma frames_supported_environments_loop (names : list string)
    (extras : string) :
  frames (supported_environments_loop names extras).
Proof.
  revert extras. induction names as [|name names IH]; intros extras;
    cbn [supported_environments_loop]; [apply frames_ret|].
  apply frames_bind; [apply frames_get_self|]. intros o.
  apply frames_bind; [|intros owned; apply IH].
  apply frames_filterM. intros a.
  apply frames_bind; [apply frames_get_env_name_for_alias|]. intros e.
  apply frames_ret.
Qed.

Lemma frames_get_msg_showing_supported_environments (msg kind : string) :
  frames (get_msg_showing_supported_environments msg kind).
Proof.
  unfold get_msg_showing_supported_environments.
  apply frames_bind; [apply frames_get_self|]. intros o.
  apply frames_bind; [apply frames_supported_environments_loop|].
  intros extras. apply frames_ret.
Qed.

Lemma validate_and_store_fails (e : string) (s s' : State)
    (o : Outcome string) :
  validate_and_store e s = (o, s') ->
  (exists q, o = Ok q) \/ s' = s.
Proof.
  unfold validate_and_store. unfold bind at 1. cbn [get_self].
  unfold bind at 1. cbn [get_source]. unfold bind at 1. unfold lift at 1.
  destruct (assert_kw_str_versions_for_env_name_components_are_supported _ _ _)
    as [[]| |]; [|intros [= <- <-]; by right..].
  unfold bind at 1. unfold lift at 1.
  destruct (assert_kw_str_node_type_is_supported _ _ _) as [[]| |];
    [|intros [= <- <-]; by right..].
  unfold bind, put_self, ret. intros [= <- <-]. left. eauto.
Qed.

(** X4. A name is cached exactly when resolution succeeds.  After a
    successful read of [qualified_env_name] the result is stored and a
    second read returns it without touching the object; a read that
    fails started with nothing cached and leaves the object as it was,
    apart from loading the configuration: nothing is cached, and the
    next read goes through the matching again. *)
Theorem only_success_is_cached (s : State) :
  match fst (qualified_env_name s) with
  | Ok q =>
      _qualified_env_name (self (snd (qualified_env_name s))) = Some q
      /\ qualified_env_name (snd (qualified_env_name s))
         = (Ok q, snd (qualified_env_name s))
  | _ =>
      _qualified_env_name (self s) = None
      /\ after_loads s (snd (qualified_env_name s))
      /\ _qualified_env_name (self (snd (qualified_env_name s))) = None
  end.
Proof.
  destruct (_qualified_env_name (self s)) as [q0|] eqn:Hq0.
  - assert (qualified_env_name s = (Ok q0, s)) as ->.
    { unfold qualified_env_name. unfold bind at 1. cbn [get_self].
      by rewrite Hq0. }
    cbn [fst snd]. split; [done|].
    unfold qualified_env_name. unfold bind at 1. cbn [get_self].
    by rewrite Hq0.
  - rewrite (qualified_env_name_fresh s Hq0).
    set (m := match match_keyword (self s) with
              | MatchedName name => ret name
              | MatchedAlias a => get_env_name_for_alias a
              | NotFound => _
              end).
    assert (frames m) as Hm.
    { subst m. destruct (match_keyword _).
      - apply frames_ret.
      - apply frames_get_env_name_for_alias.
      - apply frames_bind;
          [apply frames_get_msg_showing_supported_environments|].
        intros msg. apply frames_lift. }
    specialize (Hm s). unfold bind.
    assert (forall s1, after_loads s s1 ->
                       _qualified_env_name (self s1) = None) as Hnone.
    { intros s1 [->|[n ->]]; [done|]. by proj_fields. }
    destruct (m s) as [[e| |] s1]; cbn [fst snd] in *.
    + destruct (validate_and_store e s1) as [[q| |] s2] eqn:He;
        cbn [fst snd] in *.
      * apply validate_and_store_Ok in He as (_ & _ & ->). by split.
      * apply validate_and_store_fails in He as [[? [=]]| ->].
        repeat split; [done|]. by apply Hnone.
      * apply validate_and_store_fails in He as [[? [=]]| ->].
        repeat split; [done|]. by apply Hnone.
    + repeat split; [done|]. by apply Hnone.
    + repeat split; [done|]. by apply Hnone.
Qed.

(** X8. Building the message that lists the supported environments loads
    the configuration file twice for every pair of an environment name
    and an alias: for a parser just built (two loads so far) whose
    aliases are read alike by both readers, the count ends at
    [2 + 2 * names * aliases], and that is also where a resolution that
    matches nothing leaves it. *)
Theorem listing_loads_for_every_pair (b sys file : string)
    (cfg : ConfigData) (s : State) (sec : SectionData) (al : list string)
    (msg kind : string) :
  new_parser b sys file cfg = (Ok tt, s) ->
  getitem cfg sys = Ok sec ->
  gathered cfg sys (keys sec) [] = Ok al ->
  reads_blocks_alike cfg sys sec ->
  loads (snd (get_msg_showing_supported_environments msg kind s))
  = 2 + 2 * (length (keys sec) * length al)
  /\ (match_keyword (self s) = NotFound ->
      loads (snd (qualified_env_name s))
      = 2 + 2 * (length (keys sec) * length al)).
Proof.
  intros (sec' & al' & Hsec' & Hal' & Hd & _ & ->)%new_parser_ok
         Hsec Hal Hagree.
  assert (sec' = sec) as -> by congruence.
  assert (al' = al) as -> by congruence.
  assert (forall msg0 kind0,
            get_msg_showing_supported_environments msg0 kind0
              (constructed b sys file cfg sec al)
            = (Ok (get_formatted_msg msg0 (Some kind0)
                     (Some (supported_environments_extras
                              (self (constructed b sys file cfg sec al))
                              sec))),
               touched (2 * (length (keys sec) * length al))
                       (constructed b sys file cfg sec al))) as Hrun.
  { intros msg0 kind0.
    rewrite (get_msg_showing_supported_environments_run msg0 kind0 _ sec).
    - proj_fields. by rewrite !PyFacts.sorted_length.
    - reflexivity.
    - exact Hsec.
    - proj_fields. apply (gathered_resolvable cfg sys); [done..|].
      by apply duplicates_of_nil. }
  split.
  - rewrite Hrun. cbn [snd]. proj_fields. lia.
  - intros Hm. rewrite qualified_env_name_fresh by reflexivity.
    rewrite Hm. unfold bind. rewrite Hrun. cbn [sys_exit lift snd].
    proj_fields. lia.
Qed.

Lemma gathered_first_failure (cfg : ConfigData) (sys : string)
    (l1 l2 acc : list string) (k : string) (o : Outcome (list string)) :
  Forall (fun k' => exists l, get_values_for_section_key cfg sys k' = Ok l) l1 ->
  get_values_for_section_key cfg sys k = o ->
  (forall l, o <> Ok l) ->
  gathered cfg sys (l1 ++ k :: l2) acc = o.
Proof.
  intros Hl1 Hk Hno. revert acc.
  induction Hl1 as [|k' l1 [l Hk'] _ IH]; intros acc; cbn [gathered app].
  - rewrite Hk. destruct o as [l| |]; [by destruct (Hno l)|done..].
  - rewrite Hk'. apply IH.
Qed.

(** X7. In a section that exists, [get_aliases] loads the configuration
    once.  It returns a list exactly when every key of the section can be
    read; the list is then the lists read for the keys, put together in
    the order of the keys, has no alias twice and no environment name in
    it.  When reading a key fails, the keys before it having been read,
    that failure is the outcome, whatever the aliases read so far. *)
Theorem get_aliases_outcomes (s : State) (sec : SectionData) :
  getitem (source s) (system_name (self s)) = Ok sec ->
  (forall al,
     fst (get_aliases s) = Ok al
     <-> exists ls,
           Forall2
             (fun k l =>
                get_values_for_section_key (source s) (system_name (self s)) k
                = Ok l)
             (keys sec) ls
           /\ al = concat ls
           /\ NoDup al
           /\ forall a, In a al -> ~ In a (env_names (self s)))
  /\ (forall l1 k l2 o,
        keys sec = l1 ++ k :: l2 ->
        Forall
          (fun k' =>
             exists l,
               get_values_for_section_key (source s) (system_name (self s)) k'
               = Ok l) l1 ->
        get_values_for_section_key (source s) (system_name (self s)) k = o ->
        (forall l, o <> Ok l) ->
        fst (get_aliases s) = o)
  /\ snd (get_aliases s) = touched 1 s.
Proof.
  intros Hsec. rewrite (get_aliases_run s sec Hsec). cbn [fst snd].
  split; [|split; [|reflexivity]].
  - intros al. rewrite checked_aliases_Ok, gathered_Ok.
    rewrite duplicates_of_nil, clashes_nil. split.
    + intros ((ls & Hf & ->) & Hnd & Hc). exists ls. by repeat split.
    + intros (ls & Hf & -> & Hnd & Hc). repeat split; [|done..].
      by exists ls.
  - intros l1 k l2 o Hkeys Hl1 Hk Hno. unfold checked_aliases.
    rewrite Hkeys, (gathered_first_failure _ _ l1 l2 [] k o Hl1 Hk Hno).
    destruct o as [l| |]; [by destruct (Hno l)|done..].
Qed.

End MoreProperties.

Module MoreOnSamples.

Ltac sample := vm_compute; reflexivity.

(** The first value block of the class documentation. *)
Lemma aliases_for_env_are_clean_witness :
  (forall c, In c (chars "intel-18") ->
             c <> "#"%char /\ c <> "^"%char /\ c <> Py.nl_char
             /\ c <> "_"%char)
  /\ Py.strip "intel-18" = "intel-18".
Proof.
  apply (aliases_for_env_are_clean
           (Sample.lines ["# Environment name 1";
                          "intel-18    # Alias 1 for ^^^";
                          "intel       # Alias 2 for ^^^";
                          "default-env # ..."])).
  vm_compute. left. reflexivity.
Defined.

(** [intel-19] is an alias of the second environment. *)
Lemma alias_lookup_outcomes_witness :
  fst (@get_env_name_for_alias Plain.parser "intel-19"
         (constructed "b" "machine-type-5" "f.ini" Sample.machine_type_5
            Sample.machine_type_5_envs []))
  = Ok "intel-19.0.4-mpich-7.7.6".
Proof.
  destruct (@alias_lookup_outcomes Plain.parser
              (constructed "b" "machine-type-5" "f.ini" Sample.machine_type_5
                 Sample.machine_type_5_envs [])
              Sample.machine_type_5_envs "intel-19") as (Hk & _).
  - sample.
  - apply Hk.
    exists 1, (Some (Sample.lines ["# Environment name 2"; "intel-19"])).
    split; [reflexivity|]. split; [sample|].
    intros [|j] k' v' Hj; [|lia]. intros [= <- <-]. sample.
Defined.

Lemma unknown_system_is_a_key_error_witness :
  fst (@resolve Plain.parser "intel" "machine-type-4" "f.ini"
         Sample.machine_type_5)
  = Raise "KeyError".
Proof.
  apply (@unknown_system_is_a_key_error Plain.parser).
  intros sec [H|[]]. discriminate H.
Defined.

Lemma resolved_name_is_an_environment_witness :
  exists e,
    In e (keys Sample.machine_type_5_envs)
    /\ "machine-type-5-intel-18.0.5-mpich-7.7.6"
       = "machine-type-5" +:+ "-" +:+ e.
Proof.
  destruct (@resolved_name_is_an_environment Plain.parser
              "default_env" "machine-type-5" "f.ini" Sample.machine_type_5
              (snd (@new_parser Plain.parser "default_env" "machine-type-5"
                      "f.ini" Sample.machine_type_5))
              (snd (@qualified_env_name Plain.parser
                      (snd (@new_parser Plain.parser "default_env"
                              "machine-type-5" "f.ini"
                              Sample.machine_type_5))))
              Sample.machine_type_5_envs
              "machine-type-5-intel-18.0.5-mpich-7.7.6")
    as (e & Hin & Hq & _).
  - sample.
  - sample.
  - sample.
  - exists e. by split.
Defined.

Lemma matched_keyword_has_no_underscore_witness :
  ~ In "_"%char (chars "default-env").
Proof.
  refine (proj2 (@matched_keyword_has_no_underscore Plain.parser
                   "default_env" "machine-type-5" "f.ini"
                   Sample.machine_type_5
                   (snd (@new_parser Plain.parser "default_env"
                           "machine-type-5" "f.ini" Sample.machine_type_5))
                   "default-env" _ _)).
  - sample.
  - right. sample.
Defined.

Lemma get_aliases_outcomes_witness :
  snd (@get_aliases Plain.parser
         (Sample.before_aliases "sys" Sample.two_intels
            Sample.two_intels_envs))
  = touched 1 (Sample.before_aliases "sys" Sample.two_intels
                 Sample.two_intels_envs).
Proof.
  refine (proj2 (proj2 (@get_aliases_outcomes Plain.parser
                          (Sample.before_aliases "sys" Sample.two_intels
                             Sample.two_intels_envs)
                          Sample.two_intels_envs _))).
  sample.
Defined.

(** Two environment names and four aliases: eighteen loads. *)
Lemma listing_loads_for_every_pair_witness :
  loads (snd (@get_msg_showing_supported_environments Plain.parser
                "msg" "ERROR"
                (snd (@new_parser Plain.parser "bad_kw" "machine-type-5"
                        "supported-envs.ini" Sample.machine_type_5))))
  = 18.
Proof.
  refine (proj1 (@listing_loads_for_every_pair Plain.parser "bad_kw"
                   "machine-type-5" "supported-envs.ini"
                   Sample.machine_type_5
                   (snd (@new_parser Plain.parser "bad_kw" "machine-type-5"
                           "supported-envs.ini" Sample.machine_type_5))
                   Sample.machine_type_5_envs
                   ["intel-18"; "intel"; "default-env"; "intel-19"]
                   "msg" "ERROR" _ _ _ _)).
  - sample.
  - sample.
  - sample.
  - apply OnSamples.plain_reads_blocks_alike;
      [sample|apply NoDup_ListNoDup; repeat constructor; cbn;
              intuition discriminate].
Defined.

End MoreOnSamples.

(** * Properties of [LoadEnv] *)

Module LoadEnvFacts.
Import LoadEnv.

Section WithBase.
Context `{LC : LoadEnvCommon} `{RE : Regex}.

Lemma contains_trans (x y b : string) :
  Py.contains x y = true -> Py.contains y b = true -> Py.contains x b = true.
Proof.
  rewrite !PyFacts.contains_iff.
  intros (pre' & post' & ->) (pre & post & ->).
  exists (pre +:+ pre'), (post' +:+ post).
  by rewrite !PyFacts.app_assoc.
Qed.

Lemma sys_names_In (self : LoadEnv) (x : string) :
  In x (sys_names self)
  <-> In x (sections (supported_systems_data self)) /\ x <> "DEFAULT".
Proof.
  unfold sys_names. rewrite filter_In. split; intros [Hin Hx]; split; try done.
  - intros ->. discriminate.
  - by destruct (String.eqb_spec x "DEFAULT").
Qed.

Lemma from_build_names_In (self : LoadEnv) (x : string) :
  In x (sys_name_from_build_names self)
  <-> In x (sections (supported_systems_data self)) /\ x <> "DEFAULT"
      /\ Py.contains x (build_name (args self)) = true.
Proof.
  unfold sys_name_from_build_names. rewrite filter_In, sys_names_In. tauto.
Qed.

Lemma filter_single {A} (p : A -> bool) (l : list A) (x : A) :
  NoDup l -> In x l -> p x = true ->
  (forall y, In y l -> p y = true -> y = x) ->
  List.filter p l = [x].
Proof.
  induction l as [|z l IH]; [by intros _ []|].
  intros [Hz Hnd]%NoDup_cons Hin Hx Huniq. cbn.
  destruct (p z) eqn:Hpz.
  - assert (z = x) as -> by (apply Huniq; [by left|done]).
    f_equal. apply filter_nil. intros y Hy.
    destruct (p y) eqn:Hpy; [|done].
    assert (y = x) as -> by (apply Huniq; [by right|done]).
    destruct Hz. by apply list_elem_of_In.
  - destruct Hin as [->|Hin]; [congruence|].
    apply IH; [done..|]. intros y Hy. apply Huniq. by right.
Qed.

Lemma filter_two {A} (p : A -> bool) (l : list A) (i j : nat) (x y : A) :
  i < j -> l !! i = Some x -> l !! j = Some y ->
  p x = true -> p y = true ->
  1 < length (List.filter p l).
Proof.
  revert i j. induction l as [|z l IH]; intros i j Hij Hi Hj Hx Hy;
    [discriminate|].
  destruct j as [|j]; [lia|]. cbn in Hj.
  destruct i as [|i]; cbn in Hi.
  - injection Hi as ->. cbn. rewrite Hx. cbn.
    assert (In y (List.filter p l)) as Hin.
    { apply filter_In. split; [|done].
      apply list_elem_of_In, list_elem_of_lookup. by exists j. }
    destruct (List.filter p l); [destruct Hin|cbn; lia].
  - cbn. assert (1 < length (List.filter p l)) as H.
    { apply (IH i j); [lia|done..]. }
    destruct (p z); cbn; lia.
Qed.

(** X9. The pattern of a key is the longest start of the key without
    [#], [^] and white space: it is a start of the key, none of its
    characters is one of those, what follows it in the key is nothing or
    starts with one of those, and stripping it again changes nothing. *)
Theorem pattern_is_longest_clean_start (key : string) :
  (exists rest,
     key = strip_comment key +:+ rest
     /\ match rest with
        | EmptyString => True
        | String c _ => key_char c = false
        end)
  /\ (forall c, In c (chars (strip_comment key)) ->
                c <> "#"%char /\ c <> "^"%char /\ Py.isspace c = false)
  /\ strip_comment (strip_comment key) = strip_comment key.
Proof.
  induction key as [|c key (IHp & IHc & IHi)]; cbn [strip_comment].
  - split; [by exists ""|]. split; [intros c []|done].
  - destruct (key_char c) eqn:Hc.
    + split; [|split].
      * destruct IHp as (rest & Hk & Hr). exists rest.
        rewrite PyFacts.app_cons. by rewrite <- Hk.
      * intros x [<-|Hx]; [|by apply IHc].
        unfold key_char in Hc.
        destruct (Ascii.eqb_spec c "#"), (Ascii.eqb_spec c "^"),
          (Py.isspace c); try discriminate. done.
      * cbn [strip_comment]. by rewrite Hc, IHi.
    + split; [|split; [intros x []|done]].
      exists (String c key). by split.
Qed.

Lemma getitem_listed (data : ConfigData) (n : string) :
  In n (sections data) -> exists sec, getitem data n = Ok sec.
Proof.
  induction data as [|[n0 sec0] data IH]; cbn; [done|].
  destruct (String.eqb_spec n0 n) as [->|Hne]; [by exists sec0|].
  intros [?|Hin]; [done|by apply IH].
Qed.

Lemma find_matches_Ok (ks : list string) (hostname : string)
    (acc ms : list Match) :
  find_matches ks hostname acc = Ok ms
  <-> exists founds,
        Forall2 (fun k found => re_findall k hostname = Ok found) ks founds
        /\ ms = acc ++ concat founds.
Proof.
  revert acc. induction ks as [|k ks IH]; intros acc; cbn [find_matches].
  - split.
    + intros [= <-]. exists []. split; [constructor|]. by rewrite app_nil_r.
    + intros (fs & Hf & ->). inversion Hf; subst. cbn. by rewrite app_nil_r.
  - destruct (re_findall k hostname) as [found| |] eqn:Hk.
    + rewrite IH. split.
      * intros (fs & Hf & ->). exists (found :: fs).
        split; [by constructor|]. cbn. by rewrite app_assoc.
      * intros (fs & Hf & ->). inversion Hf as [|? f0 ? fs' Hk0 Hf']; subst.
        exists fs'. split; [done|]. cbn.
        assert (f0 = found) as -> by congruence. by rewrite app_assoc.
    + split; [discriminate|]. intros (fs & Hf & _).
      inversion Hf; subst. congruence.
    + split; [discriminate|]. intros (fs & Hf & _).
      inversion Hf; subst. congruence.
Qed.

Lemma find_matches_quiet (sec : SectionData) (hostname : string) :
  find_matches (map strip_comment (keys sec)) hostname [] = Ok []
  <-> quiet sec hostname.
Proof.
  rewrite find_matches_Ok. unfold quiet. cbn [app].
  generalize (keys sec). intros ks. split.
  - intros (fs & Hf & Hnil) k Hin. revert fs Hf Hnil.
    induction ks as [|k0 ks IH]; intros fs Hf Hnil; [destruct Hin|].
    inversion Hf as [|? f0 ? fs' Hk0 Hf']; subst. cbn in Hnil.
    symmetry in Hnil. apply app_eq_nil in Hnil as [-> Hnil].
    destruct Hin as [<-|Hin]; [done|]. by apply (IH Hin fs').
  - intros Hq. exists (map (fun _ => []) ks). split.
    + induction ks as [|k0 ks IH]; cbn; constructor.
      * apply Hq. by left.
      * apply IH. intros k Hk. apply Hq. by right.
    + induction ks as [|k0 ks IH]; [done|]. cbn. apply IH.
      intros k Hk. apply Hq. by right.
Qed.

Lemma find_matches_answers (sec : SectionData) (hostname : string) :
  (exists ms, find_matches (map strip_comment (keys sec)) hostname [] = Ok ms
              /\ ms <> [])
  <-> answers sec hostname.
Proof.
  unfold answers. generalize (keys sec). intros ks. split.
  - intros (ms & (fs & Hf & ->)%find_matches_Ok & Hne). cbn [app] in Hne.
    split.
    + intros k Hin. clear Hne. revert fs Hf.
      induction ks as [|k0 ks IH]; intros fs Hf; [destruct Hin|].
      inversion Hf as [|? f0 ? fs' Hk0 Hf']; subst.
      destruct Hin as [<-|Hin]; [by exists f0|]. by apply (IH Hin fs').
    + revert fs Hf Hne.
      induction ks as [|k0 ks IH]; intros fs Hf Hne.
      * inversion Hf; subst. by destruct Hne.
      * inversion Hf as [|? f0 ? fs' Hk0 Hf']; subst. cbn in Hne.
        destruct f0 as [|m f0].
        -- destruct (IH fs' Hf' Hne) as (k & found & Hin & Hk & Hfound).
           exists k, found. repeat split; [by right|done..].
        -- exists k0, (m :: f0). repeat split; [by left|done..].
  - intros (Hall & k & found & Hin & Hk & Hne).
    assert (exists fs,
              Forall2 (fun k found => re_findall k hostname = Ok found)
                      (map strip_comment ks) fs
              /\ In found fs) as (fs & Hf & Hfs).
    { clear Hne. induction ks as [|k0 ks IH]; [destruct Hin|].
      destruct (Hall k0) as [f0 Hk0]; [by left|].
      destruct Hin as [->|Hin].
      - assert (exists fs, Forall2 (fun k found => re_findall k hostname = Ok found)
                                   (map strip_comment ks) fs) as [fs Hf].
        { clear IH. induction ks as [|k1 ks IH1]; [by exists []|].
          destruct (Hall k1) as [f1 Hk1]; [right; by left|].
          destruct IH1 as [fs Hf].
          { intros k' [<-|Hk']; apply Hall; [by left|right; by right]. }
          exists (f1 :: fs). by constructor. }
        exists (found :: fs). split; [by constructor|by left].
      - destruct (IH (fun k' Hk' => Hall k' (or_intror Hk')) Hin)
          as (fs & Hf & Hfs).
        exists (f0 :: fs). split; [by constructor|by right]. }
    exists (concat fs). split.
    + apply find_matches_Ok. by exists fs.
    + intros Hnil. destruct found; [done|].
      assert (In m (concat fs)) as Hm.
      { apply in_concat. exists (m :: found). split; [done|by left]. }
      rewrite Hnil in Hm. destruct Hm.
Qed.

Lemma search_systems_Some (self : LoadEnv) (names : list string)
    (hostname n : string) :
  search_systems self names hostname = Ok (Some n)
  <-> exists l1 l2 sec,
        names = l1 ++ n :: l2
        /\ getitem (supported_systems_data self) n = Ok sec
        /\ answers sec hostname
        /\ forall n', In n' l1 ->
             exists sec', getitem (supported_systems_data self) n' = Ok sec'
                          /\ quiet sec' hostname.
Proof.
  induction names as [|n0 names IH]; cbn [search_systems].
  - split; [discriminate|]. intros (l1 & l2 & sec & Hl & _).
    by destruct l1.
  - destruct (getitem (supported_systems_data self) n0) as [sec0| |] eqn:Hsec0.
    + destruct (find_matches _ hostname []) as [ms| |] eqn:Hms.
      * destruct ms as [|m ms]; cbn [length Nat.ltb Nat.leb].
        -- rewrite IH. apply find_matches_quiet in Hms. split.
           ++ intros (l1 & l2 & sec & -> & Hsec & Ha & Hq).
              exists (n0 :: l1), l2, sec. do 3 (split; [done|]).
              intros n' [<-|Hn']; [by exists sec0|by apply Hq].
           ++ intros (l1 & l2 & sec & Hl & Hsec & Ha & Hq).
              destruct l1 as [|n1 l1]; cbn in Hl.
              ** injection Hl as <- <-. exfalso.
                 assert (sec = sec0) as -> by congruence.
                 destruct Ha as (_ & k & found & Hin & Hk & Hne).
                 rewrite (Hms k Hin) in Hk. congruence.
              ** injection Hl as <- ->. exists l1, l2, sec.
                 do 3 (split; [done|]). intros n' Hn'. apply Hq. by right.
        -- split.
           ++ intros [= ->]. exists [], names, sec0.
              do 2 (split; [done|]). split; [|by intros ? []].
              apply find_matches_answers. by exists (m :: ms).
           ++ intros (l1 & l2 & sec & Hl & Hsec & Ha & Hq).
              destruct l1 as [|n1 l1]; cbn in Hl.
              ** by injection Hl as <- <-.
              ** injection Hl as <- ->. exfalso.
                 destruct (Hq n0) as (sec' & Hsec' & Hq'); [by left|].
                 assert (sec' = sec0) as -> by congruence.
                 apply find_matches_quiet in Hq'. congruence.
      * split; [discriminate|].
        intros (l1 & l2 & sec & Hl & Hsec & Ha & Hq). exfalso.
        destruct l1 as [|n1 l1]; cbn in Hl.
        -- injection Hl as <- <-. assert (sec = sec0) as -> by congruence.
           apply find_matches_answers in Ha as (ms & Hms' & _). congruence.
        -- injection Hl as <- ->.
           destruct (Hq n0) as (sec' & Hsec' & Hq'); [by left|].
           assert (sec' = sec0) as -> by congruence.
           apply find_matches_quiet in Hq'. congruence.
      * split; [discriminate|].
        intros (l1 & l2 & sec & Hl & Hsec & Ha & Hq). exfalso.
        destruct l1 as [|n1 l1]; cbn in Hl.
        -- injection Hl as <- <-. assert (sec = sec0) as -> by congruence.
           apply find_matches_answers in Ha as (ms & Hms' & _). congruence.
        -- injection Hl as <- ->.
           destruct (Hq n0) as (sec' & Hsec' & Hq'); [by left|].
           assert (sec' = sec0) as -> by congruence.
           apply find_matches_quiet in Hq'. congruence.
    + split; [discriminate|].
      intros (l1 & l2 & sec & Hl & Hsec & Ha & Hq). exfalso.
      destruct l1 as [|n1 l1]; cbn in Hl.
      * injection Hl as <- <-. congruence.
      * injection Hl as <- ->.
        destruct (Hq n0) as (sec' & Hsec' & _); [by left|]. congruence.
    + split; [discriminate|].
      intros (l1 & l2 & sec & Hl & Hsec & Ha & Hq). exfalso.
      destruct l1 as [|n1 l1]; cbn in Hl.
      * injection Hl as <- <-. congruence.
      * injection Hl as <- ->.
        destruct (Hq n0) as (sec' & Hsec' & _); [by left|]. congruence.
Qed.

Lemma search_systems_None (self : LoadEnv) (names : list string)
    (hostname : string) :
  (forall n, In n names -> In n (sections (supported_systems_data self))) ->
  search_systems self names hostname = Ok None
  <-> forall n sec, In n names ->
        getitem (supported_systems_data self) n = Ok sec ->
        quiet sec hostname.
Proof.
  induction names as [|n0 names IH]; intros Hlisted; cbn [search_systems].
  - split; [by intros _ ? ? []|done].
  - destruct (getitem_listed _ n0 (Hlisted n0 (or_introl eq_refl)))
      as [sec0 Hsec0].
    rewrite Hsec0.
    assert (forall n, In n names ->
                      In n (sections (supported_systems_data self))) as Hl'.
    { intros n Hn. apply Hlisted. by right. }
    destruct (find_matches _ hostname []) as [ms| |] eqn:Hms.
    + destruct ms as [|m ms]; cbn [length Nat.ltb Nat.leb].
      * rewrite (IH Hl'). apply find_matches_quiet in Hms. split.
        -- intros H n sec [<-|Hn] Hsec; [|by apply (H n)].
           assert (sec = sec0) as -> by congruence. done.
        -- intros H n sec Hn. apply H. by right.
      * split; [discriminate|]. intros H.
        assert (quiet sec0 hostname) as Hq by (apply (H n0); [by left|done]).
        apply find_matches_quiet in Hq. congruence.
    + split; [discriminate|]. intros H.
      assert (quiet sec0 hostname) as Hq by (apply (H n0); [by left|done]).
      apply find_matches_quiet in Hq. congruence.
    + split; [discriminate|]. intros H.
      assert (quiet sec0 hostname) as Hq by (apply (H n0); [by left|done]).
      apply find_matches_quiet in Hq. congruence.
Qed.

(** X10. [get_sys_name_from_hostname] returns the first system, in the
    order of the file and [DEFAULT] apart, one of whose keys finds
    something in the host name: every key of that system is a pattern
    that compiles, and every key of every system before it finds
    nothing.  The systems after it are not looked at.  It returns [None]
    exactly when no key of any system finds anything. *)
Theorem host_system_is_the_first_match (self : LoadEnv) (hostname : string) :
  (forall n,
     get_sys_name_from_hostname self hostname = Ok (Some n)
     <-> exists l1 l2 sec,
           sys_names self = l1 ++ n :: l2
           /\ getitem (supported_systems_data self) n = Ok sec
           /\ answers sec hostname
           /\ forall n', In n' l1 ->
                exists sec',
                  getitem (supported_systems_data self) n' = Ok sec'
                  /\ quiet sec' hostname)
  /\ (get_sys_name_from_hostname self hostname = Ok None
      <-> forall n sec,
            In n (sys_names self) ->
            getitem (supported_systems_data self) n = Ok sec ->
            quiet sec hostname).
Proof.
  split.
  - intros n. apply search_systems_Some.
  - apply search_systems_None. intros n Hn.
    by apply sys_names_In in Hn as [? _].
Qed.

Lemma find_matches_first_failure (ks1 ks2 : list string) (k hostname : string)
    (acc : list Match) (o : Outcome (list Match)) :
  Forall (fun k' => exists found, re_findall k' hostname = Ok found) ks1 ->
  re_findall k hostname = o ->
  (forall found, o <> Ok found) ->
  find_matches (ks1 ++ k :: ks2) hostname acc
  = match o with
    | Ok found => Ok found
    | SysExit m => SysExit m
    | Raise e => Raise e
    end.
Proof.
  intros Hks1 Hk Hno. revert acc.
  induction Hks1 as [|k' ks1 [found Hk'] _ IH]; intros acc;
    cbn [find_matches app].
  - rewrite Hk. destruct o as [found| |]; [by destruct (Hno found)|done..].
  - rewrite Hk'. apply IH.
Qed.

(** X11. Every key of a system is tried before the system is chosen: when
    the systems before it find nothing and one of its keys is a pattern
    that does not compile, the keys before that one compiling, the lookup
    raises that exception, even when a key before it found the host. *)
Theorem pattern_error_beats_a_match (self : LoadEnv) (hostname : string)
    (l1 l2 : list string) (n : string) (sec : SectionData)
    (ks1 ks2 : list string) (k e : string) :
  sys_names self = l1 ++ n :: l2 ->
  (forall n', In n' l1 ->
     exists sec', getitem (supported_systems_data self) n' = Ok sec'
                  /\ quiet sec' hostname) ->
  getitem (supported_systems_data self) n = Ok sec ->
  keys sec = ks1 ++ k :: ks2 ->
  Forall (fun k' => exists found,
            re_findall (strip_comment k') hostname = Ok found) ks1 ->
  re_findall (strip_comment k) hostname = Raise e ->
  get_sys_name_from_hostname self hostname = Raise e.
Proof.
  intros Hnames Hq Hsec Hkeys Hks1 Hk. unfold get_sys_name_from_hostname.
  rewrite Hnames. clear Hnames.
  induction l1 as [|n0 l1 IH]; cbn [search_systems app].
  - rewrite Hsec, Hkeys, map_app. cbn [map].
    rewrite (find_matches_first_failure
               (map strip_comment ks1) (map strip_comment ks2)
               (strip_comment k) hostname [] (Raise e)); [done| |done..].
    clear Hkeys. induction Hks1; cbn [map]; by constructor.
  - destruct (Hq n0) as (sec0 & Hsec0 & Hq0); [by left|].
    rewrite Hsec0. apply find_matches_quiet in Hq0. rewrite Hq0.
    cbn [length Nat.ltb Nat.leb]. apply IH. intros n' Hn'. apply Hq.
    by right.
Qed.

Lemma from_build_name_Some (self : LoadEnv) (x : string) :
  get_sys_name_from_build_name self = Ok (Some x) ->
  sys_name_from_build_names self = [x].
Proof.
  unfold get_sys_name_from_build_name.
  destruct (sys_name_from_build_names self) as [|x0 [|y l]];
    cbn [length Nat.ltb Nat.leb Nat.eqb lookup list_lookup];
    [discriminate| |discriminate].
  by intros [= ->].
Qed.

Lemma from_build_name_None (self : LoadEnv) :
  get_sys_name_from_build_name self = Ok None
  <-> forall x, In x (sections (supported_systems_data self)) ->
                x <> "DEFAULT" ->
                Py.contains x (build_name (args self)) = false.
Proof.
  unfold get_sys_name_from_build_name.
  pose proof (from_build_names_In self) as HIn.
  destruct (sys_name_from_build_names self) as [|x [|y l]] eqn:Hf;
    cbn [length Nat.ltb Nat.leb Nat.eqb lookup list_lookup].
  - split; [|done]. intros _ x Hx Hd.
    destruct (Py.contains x _) eqn:Hc; [|done].
    by destruct (proj2 (HIn x)).
  - split; [discriminate|]. intros H.
    destruct (proj1 (HIn x)) as (Hx & Hd & Hc); [by left|].
    rewrite (H x Hx Hd) in Hc. discriminate.
  - split; [discriminate|]. intros H.
    destruct (proj1 (HIn x)) as (Hx & Hd & Hc); [by left|].
    rewrite (H x Hx Hd) in Hc. discriminate.
Qed.

(** X12. [get_sys_name_from_build_name] raises nothing.  It returns
    [None] exactly when no system name is in the build name; a name it
    returns is a section other than [DEFAULT], is in the build name, and
    is the only such; when the sections have distinct names, the only
    such name is returned; and two sections whose names are in the build
    name make it fail with the message that lists the names found. *)
Theorem build_name_system_outcomes (self : LoadEnv) :
  (forall e, get_sys_name_from_build_name self <> Raise e)
  /\ (get_sys_name_from_build_name self = Ok None
      <-> forall x, In x (sections (supported_systems_data self)) ->
                    x <> "DEFAULT" ->
                    Py.contains x (build_name (args self)) = false)
  /\ (forall x,
        get_sys_name_from_build_name self = Ok (Some x) ->
        In x (sections (supported_systems_data self))
        /\ x <> "DEFAULT"
        /\ Py.contains x (build_name (args self)) = true
        /\ forall y, In y (sections (supported_systems_data self)) ->
                     y <> "DEFAULT" ->
                     Py.contains y (build_name (args self)) = true ->
                     y = x)
  /\ (forall x,
        NoDup (sections (supported_systems_data self)) ->
        In x (sections (supported_systems_data self)) ->
        x <> "DEFAULT" ->
        Py.contains x (build_name (args self)) = true ->
        (forall y, In y (sections (supported_systems_data self)) ->
                   y <> "DEFAULT" ->
                   Py.contains y (build_name (args self)) = true ->
                   y = x) ->
        get_sys_name_from_build_name self = Ok (Some x))
  /\ (forall i j x y,
        i < j ->
        sys_names self !! i = Some x ->
        sys_names self !! j = Some y ->
        Py.contains x (build_name (args self)) = true ->
        Py.contains y (build_name (args self)) = true ->
        get_sys_name_from_build_name self
        = SysExit (get_msg_for_list more_than_one_text
                     (sys_name_from_build_names self))
        /\ In x (sys_name_from_build_names self)
        /\ In y (sys_name_from_build_names self)).
Proof.
  unfold get_sys_name_from_build_name.
  pose proof (from_build_names_In self) as HIn.
  split; [|split; [|split; [|split]]].
  - intros e. destruct (sys_name_from_build_names self) as [|x [|y l]];
      discriminate.
  - fold (get_sys_name_from_build_name self). apply from_build_name_None.
  - intros x Hf%from_build_name_Some.
    destruct (proj1 (HIn x)) as (Hx & Hd & Hc); [rewrite Hf; by left|].
    do 3 (split; [done|]). intros y Hy Hyd Hyc.
    assert (In y (sys_name_from_build_names self)) as Hin
      by (apply HIn; by repeat split).
    rewrite Hf in Hin. by destruct Hin as [<-|[]].
  - intros x Hnd Hx Hd Hc Huniq.
    assert (sys_name_from_build_names self = [x]) as Hf.
    { unfold sys_name_from_build_names. apply filter_single.
      - unfold sys_names. apply NoDup_ListNoDup, List.NoDup_filter.
        by apply NoDup_ListNoDup.
      - by apply sys_names_In.
      - done.
      - intros y [Hy Hyd]%sys_names_In Hyc. by apply Huniq. }
    by rewrite Hf.
  - intros i j x y Hij Hi Hj Hx Hy.
    assert (1 < length (sys_name_from_build_names self)) as Hlen.
    { unfold sys_name_from_build_names. by apply (filter_two _ _ i j x y). }
    apply Nat.ltb_lt in Hlen. rewrite Hlen. repeat split.
    + apply filter_In. split; [|done].
      apply list_elem_of_In, list_elem_of_lookup. by exists i.
    + apply filter_In. split; [|done].
      apply list_elem_of_In, list_elem_of_lookup. by exists j.
Qed.

(** X13. A system whose name has the name of another system inside it
    cannot be chosen by the build name: a build name with the longer name
    in it has the shorter one in it as well, and
    [get_sys_name_from_build_name] fails. *)
Theorem system_name_inside_another (self : LoadEnv) (i j : nat)
    (x y : string) :
  i <> j ->
  sys_names self !! i = Some x ->
  sys_names self !! j = Some y ->
  Py.contains x y = true ->
  Py.contains y (build_name (args self)) = true ->
  get_sys_name_from_build_name self
  = SysExit (get_msg_for_list more_than_one_text
               (sys_name_from_build_names self))
  /\ In x (sys_name_from_build_names self)
  /\ In y (sys_name_from_build_names self).
Proof.
  intros Hij Hi Hj Hxy Hy.
  assert (Py.contains x (build_name (args self)) = true) as Hx
    by (by apply (contains_trans x y)).
  assert (1 < length (sys_name_from_build_names self)) as Hlen.
  { unfold sys_name_from_build_names.
    destruct (Nat.lt_total i j) as [Hlt|[?|Hlt]]; [|done|].
    - by apply (filter_two _ _ i j x y).
    - by apply (filter_two _ _ j i y x). }
  unfold get_sys_name_from_build_name.
  apply Nat.ltb_lt in Hlen. rewrite Hlen. repeat split.
  - apply filter_In. split; [|done].
    apply list_elem_of_In, list_elem_of_lookup. by exists i.
  - apply filter_In. split; [|done].
    apply list_elem_of_In, list_elem_of_lookup. by exists j.
Qed.

Lemma build_name_ignores_system (self : LoadEnv) (v : option string) :
  get_sys_name_from_build_name (set_system_name v self)
  = get_sys_name_from_build_name self.
Proof. reflexivity. Qed.

(** X14. When [determine_system] returns, the object holds a system that
    is a section other than [DEFAULT]: the one
    [get_sys_name_from_build_name] gives, or, when that gives none, the
    one [get_sys_name_from_hostname] gives for the host.  A later call
    changes nothing, whatever the host is then. *)
Theorem determined_system_is_listed (self self' : LoadEnv)
    (hostname : string) :
  system_name self = None ->
  determine_system hostname self = (Ok tt, self') ->
  exists n,
    system_name self' = Some n
    /\ self' = set_system_name (Some n) self
    /\ In n (sections (supported_systems_data self))
    /\ n <> "DEFAULT"
    /\ (get_sys_name_from_build_name self = Ok (Some n)
        \/ get_sys_name_from_build_name self = Ok None
           /\ get_sys_name_from_hostname self hostname = Ok (Some n))
    /\ forall hostname',
         determine_system hostname' self' = (Ok tt, self').
Proof.
  intros Hnone. unfold determine_system. rewrite Hnone.
  destruct (get_sys_name_from_hostname self hostname) as [h| |] eqn:Hh;
    [|discriminate..].
  rewrite build_name_ignores_system.
  destruct (get_sys_name_from_build_name self) as [b| |] eqn:Hb;
    [|discriminate..].
  assert (forall x, b = Some x ->
            In x (sections (supported_systems_data self)) /\ x <> "DEFAULT")
    as Hbx.
  { intros x ->. apply from_build_name_Some in Hb.
    destruct (proj1 (from_build_names_In self x)) as (? & ? & _);
      [rewrite Hb; by left|done]. }
  assert (forall y, h = Some y ->
            In y (sections (supported_systems_data self)) /\ y <> "DEFAULT")
    as Hhy.
  { intros y ->. apply search_systems_Some in Hh as (l1 & l2 & _ & Hl & _).
    apply sys_names_In. rewrite Hl. apply in_or_app. right. by left. }
  destruct h as [y|], b as [x|].
  - destruct (negb (String.eqb y x) && negb (force _)); [discriminate|].
    intros [= <-]. exists x. destruct (Hbx x eq_refl).
    do 4 (split; [done|]). split; [by left|]. by intros.
  - intros [= <-]. exists y. destruct (Hhy y eq_refl).
    do 4 (split; [done|]). split; [right; by split|]. by intros.
  - intros [= <-]. exists x. destruct (Hbx x eq_refl).
    do 4 (split; [done|]). split; [by left|]. by intros.
  - discriminate.
Qed.

(** X15. When the host belongs to one system and the build name names
    another, [determine_system] fails unless [--force] is given, and with
    [--force] takes the system of the build name.  In both cases the
    object is left holding the system of the build name, so that a
    second call, after the failure, returns without a complaint. *)
Theorem mismatch_needs_force (self : LoadEnv) (hostname x y : string) :
  system_name self = None ->
  get_sys_name_from_hostname self hostname = Ok (Some y) ->
  get_sys_name_from_build_name self = Ok (Some x) ->
  x <> y ->
  fst (determine_system hostname self)
  = (if force (args self) then Ok tt
     else SysExit (get_formatted_msg
                     (mismatch_text hostname y
                        (supported_systems_file (args self)) x)))
  /\ snd (determine_system hostname self) = set_system_name (Some x) self
  /\ forall hostname',
       determine_system hostname' (snd (determine_system hostname self))
       = (Ok tt, set_system_name (Some x) self).
Proof.
  intros Hnone Hh Hb Hxy. unfold determine_system at 1 2 4.
  rewrite Hnone, Hh, build_name_ignores_system, Hb.
  cbn [set_system_name args].
  destruct (String.eqb_spec y x) as [->|_]; [done|].
  cbn [negb andb]. destruct (force (args self)); cbn [negb fst snd];
    by repeat split.
Qed.

(** X16. When no key of any system finds anything in the host name and
    no system name is in the build name, [determine_system] fails with
    the message that names the host and the file, and the object is as
    it was: it still holds no system. *)
Theorem no_system_is_fatal (self : LoadEnv) (hostname : string) :
  system_name self = None ->
  (forall n sec,
     In n (sections (supported_systems_data self)) ->
     n <> "DEFAULT" ->
     getitem (supported_systems_data self) n = Ok sec ->
     quiet sec hostname) ->
  (forall x, In x (sections (supported_systems_data self)) ->
             x <> "DEFAULT" ->
             Py.contains x (build_name (args self)) = false) ->
  determine_system hostname self
  = (SysExit (get_formatted_msg
                (no_system_text hostname
                   (supported_systems_file (args self)))),
     self).
Proof.
  intros Hnone Hq Hb.
  assert (get_sys_name_from_hostname self hostname = Ok None) as Hh.
  { apply search_systems_None.
    - intros n Hn. by apply sys_names_In in Hn as [? _].
    - intros n sec [Hn Hd]%sys_names_In. by apply Hq. }
  apply from_build_name_None in Hb.
  unfold determine_system.
  rewrite Hnone, Hh, build_name_ignores_system, Hb.
  f_equal. destruct self as [a d sn]. cbn in Hnone. by subst sn.
Qed.

End WithBase.

Ltac sample := vm_compute; reflexivity.

(** The host [blake] belongs to the third system: the keys of the two
    systems before it find nothing in that name. *)
Lemma host_system_is_the_first_match_witness :
  @get_sys_name_from_hostname Literal.regex
    (Literal.load_env "any" false) "blake"
  = Ok (Some "blake").
Proof.
  apply (proj1 (@host_system_is_the_first_match Literal.regex
                  (Literal.load_env "any" false) "blake")).
  exists ["machine-type-5-gpu"; "machine-type-5"], [], [("blake", None)].
  split; [sample|]. split; [sample|]. split.
  - split.
    + intros k [<-|[]]; eexists; sample.
    + exists "blake", ["blake"]. split; [by left|]. split; [sample|done].
  - intros n' [<-|[<-|[]]].
    + eexists. split; [sample|]. intros k [<-|[]]. sample.
    + eexists. split; [sample|]. intros k [<-|[<-|[]]]; sample.
Defined.

(** The first key of [machine-type-5] finds the host [mutrino], the
    second does not compile. *)
Lemma pattern_error_beats_a_match_witness :
  @get_sys_name_from_hostname Literal.regex Literal.broken_env "mutrino"
  = Raise "re.error".
Proof.
  apply (@pattern_error_beats_a_match Literal.regex
           Literal.broken_env "mutrino"
           ["machine-type-4"] [] "machine-type-5"
           [("mutrino", None); ("login(", None)]
           ["mutrino"] [] "login(").
  - sample.
  - intros n' [<-|[]]. eexists. split; [sample|]. intros k [<-|[]]. sample.
  - sample.
  - sample.
  - constructor; [|constructor]. eexists. sample.
  - sample.
Defined.

Lemma system_name_inside_another_witness :
  In "machine-type-5"
     (sys_name_from_build_names
        (Literal.load_env "machine-type-5-gpu_intel" false))
  /\ In "machine-type-5-gpu"
        (sys_name_from_build_names
           (Literal.load_env "machine-type-5-gpu_intel" false)).
Proof.
  refine (proj2 (@system_name_inside_another Literal.common
                   (Literal.load_env "machine-type-5-gpu_intel" false)
                   1 0 "machine-type-5" "machine-type-5-gpu" _ _ _ _ _)).
  - lia.
  - sample.
  - sample.
  - sample.
  - sample.
Defined.

Lemma determined_system_is_listed_witness :
  exists n,
    system_name
      (snd (@determine_system Literal.common Literal.regex "blake"
              (Literal.load_env "any_intel" false)))
    = Some n
    /\ n <> "DEFAULT".
Proof.
  destruct (@determined_system_is_listed Literal.common Literal.regex
              (Literal.load_env "any_intel" false)
              (snd (@determine_system Literal.common Literal.regex "blake"
                      (Literal.load_env "any_intel" false)))
              "blake")
    as (n & Hn & _ & _ & Hd & _).
  - sample.
  - sample.
  - exists n. by split.
Defined.

(** The host [gpu-node] belongs to [machine-type-5-gpu], the build name
    names [blake], and [--force] is not given. *)
Lemma mismatch_needs_force_witness :
  fst (@determine_system Literal.common Literal.regex "gpu-node"
         (Literal.load_env "blake_intel" false))
  = SysExit (mismatch_text "gpu-node" "machine-type-5-gpu"
               "supported-systems.ini" "blake")
  /\ forall hostname',
       @determine_system Literal.common Literal.regex hostname'
         (snd (@determine_system Literal.common Literal.regex "gpu-node"
                 (Literal.load_env "blake_intel" false)))
       = (Ok tt,
          set_system_name (Some "blake")
            (Literal.load_env "blake_intel" false)).
Proof.
  destruct (@mismatch_needs_force Literal.common Literal.regex
              (Literal.load_env "blake_intel" false)
              "gpu-node" "blake" "machine-type-5-gpu")
    as (Hfst & _ & Hagain).
  - sample.
  - sample.
  - sample.
  - discriminate.
  - split; [exact Hfst|exact Hagain].
Defined.

Lemma no_system_is_fatal_witness :
  @determine_system Literal.common Literal.regex "laptop"
    (Literal.load_env "any_intel" false)
  = (SysExit (no_system_text "laptop" "supported-systems.ini"),
     Literal.load_env "any_intel" false).
Proof.
  apply (@no_system_is_fatal Literal.common Literal.regex
           (Literal.load_env "any_intel" false) "laptop").
  - sample.
  - intros n sec [<-|[<-|[<-|[<-|[]]]]] Hd; try done;
      intros [= <-] k Hk; cbn in Hk; intuition (subst; sample).
  - intros x [<-|[<-|[<-|[<-|[]]]]] Hd; try done; sample.
Defined.

End LoadEnvFacts.
